(** * Agentic job search: the agents' parsing, scoring and fallback logic

    A shallow embedding of the agent modules under [src/agents] and the
    properties of their parsers, heuristics and fallbacks.

    Conventions of the embedding.
    - A Python [str] is a list of code points ([list N]).  The character
      classes ([str.isspace], [str.lower], the regular-expression classes
      [\s], [\d], [\w], ...) are exact on the Latin-1 range (code points
      below 256); every other code point, the bullet U+2022 that the parsers
      look for included, is a caseless symbol that is neither space, digit
      nor word character.
    - [int()] of a run of decimal digits is the unbounded integer it denotes
      (the limit CPython can put on the number of digits is left out).
    - Quotients of integers that the source compares or rounds as floats are
      exact rationals.
    - Dictionaries with string keys are [gmap string _]; dictionaries of a
      fixed shape that a function builds and returns are records.
    - A call to a hosted service is represented by its outcome: the value it
      returned or the exception it raised ([result]); [try_except] is the
      [try: ... except Exception] block around it.  Printing and logging are
      left out. *)

From Stdlib Require Import ZArith NArith QArith Qround List Ascii String Bool Lia Lqa.
From Stdlib Require Import DecimalString.
From stdpp Require Import base option list gmap strings.
Import ListNotations.
Close Scope Q_scope.

Set Default Proof Using "Type".

(** ** Python strings *)

Module PyStr.

Definition char := N.
Definition str := list char.

(** A literal of the source, as a list of code points. *)
Definition s2l (s : string) : str := map N_of_ascii (list_ascii_of_string s).

Definition bullet : char := 8226%N.
Definition newline : char := 10%N.

Definition in_range (lo hi c : N) : bool := (lo <=? c)%N && (c <=? hi)%N.

(** [str.isspace], which is also the class [\s]. *)
Definition isspace (c : char) : bool :=
  in_range 9 13 c || in_range 28 32 c || (c =? 133)%N || (c =? 160)%N.

(** The class [\d]: decimal digits. *)
Definition isdecimal (c : char) : bool := in_range 48 57 c.

(** [str.isdigit]: the decimal digits and the superscripts 1, 2, 3. *)
Definition isdigit (c : char) : bool :=
  isdecimal c || (c =? 178)%N || (c =? 179)%N || (c =? 185)%N.

(** [str.isupper] on one character. *)
Definition isupper (c : char) : bool :=
  in_range 65 90 c || (in_range 192 222 c && negb (c =? 215)%N).

(** The class [\w]: alphanumeric characters and the underscore. *)
Definition isword (c : char) : bool :=
  in_range 48 57 c || in_range 65 90 c || in_range 97 122 c || (c =? 95)%N
  || (c =? 170)%N || (c =? 178)%N || (c =? 179)%N || (c =? 181)%N
  || (c =? 185)%N || (c =? 186)%N || in_range 188 190 c
  || in_range 192 214 c || in_range 216 246 c || in_range 248 255 c.

Definition lower_char (c : char) : char := if isupper c then (c + 32)%N else c.

(** [str.upper] maps a few Latin-1 characters out of the range or to two
    characters. *)
Definition upper_char (c : char) : list char :=
  if in_range 97 122 c || (in_range 224 254 c && negb (c =? 247)%N)
  then [(c - 32)%N]
  else if (c =? 181)%N then [924%N]
  else if (c =? 223)%N then [83%N; 83%N]
  else if (c =? 255)%N then [376%N]
  else [c].

Definition lower (s : str) : str := map lower_char s.
Definition upper (s : str) : str := flat_map upper_char s.

Fixpoint dropwhile (p : char -> bool) (s : str) : str :=
  match s with
  | c :: s' => if p c then dropwhile p s' else s
  | [] => []
  end.

Definition lstrip (s : str) : str := dropwhile isspace s.
Definition rstrip (s : str) : str := rev (dropwhile isspace (rev s)).
Definition strip (s : str) : str := rstrip (lstrip s).

Definition char_in (cs : str) (c : char) : bool := existsb (N.eqb c) cs.

(** [s.lstrip(chars)] *)
Definition lstrip_chars (cs : str) (s : str) : str := dropwhile (char_in cs) s.

(** [s.startswith(p)] *)
Fixpoint startswith (p s : str) : bool :=
  match p, s with
  | [], _ => true
  | a :: p', b :: s' => (a =? b)%N && startswith p' s'
  | _ :: _, [] => false
  end.

(** [a == b] *)
Fixpoint str_eqb (a b : str) : bool :=
  match a, b with
  | [], [] => true
  | x :: a', y :: b' => (x =? y)%N && str_eqb a' b'
  | _, _ => false
  end.

(** [sub in s] *)
Fixpoint contains (sub s : str) : bool :=
  startswith sub s ||
  match s with
  | [] => false
  | _ :: s' => contains sub s'
  end.

(** [any(pattern in s for pattern in patterns)] *)
Definition any_in (patterns : list string) (s : str) : bool :=
  existsb (fun pattern => contains (s2l pattern) s) patterns.

(** [s.split(sep)] for a separator of one character. *)
Fixpoint split (sep : char) (s : str) : list str :=
  match s with
  | [] => [[]]
  | c :: s' =>
      if (c =? sep)%N then [] :: split sep s'
      else match split sep s' with
           | l :: ls => (c :: l) :: ls
           | [] => [[c]]
           end
  end.

(** [sep.join(l)] *)
Fixpoint join (sep : str) (l : list str) : str :=
  match l with
  | [] => []
  | [x] => x
  | x :: l' => x ++ sep ++ join sep l'
  end.

(** [s.replace(old, new)] for a non-empty [old]: the occurrences are taken
    from the left and do not overlap; [skip] counts the characters of a
    replaced occurrence that are still to be passed over. *)
Fixpoint replace_from (old new s : str) (skip : nat) : str :=
  match s with
  | [] => []
  | c :: s' =>
      match skip with
      | S n => replace_from old new s' n
      | O => if startswith old s
             then new ++ replace_from old new s' (length old - 1)
             else c :: replace_from old new s' 0
      end
  end.

Definition replace (old new s : str) : str := replace_from old new s 0.

(** [int(s)] for a string of decimal digits. *)
Definition digit_val (c : char) : Z := Z.of_N (c - 48).
Definition int_of (s : str) : Z := fold_left (fun acc c => 10 * acc + digit_val c)%Z s 0%Z.

(** [str(n)] for a natural number. *)
Definition str_of_nat (n : nat) : str := s2l (NilZero.string_of_uint (Nat.to_uint n)).

(** [s.title()] for the ASCII constants it is applied to: the first letter
    of every run of letters in upper case, the others in lower case. *)
Definition isalpha_ascii (c : char) : bool := in_range 65 90 c || in_range 97 122 c.

Fixpoint title_from (prev_alpha : bool) (s : str) : str :=
  match s with
  | [] => []
  | c :: s' =>
      (if isalpha_ascii c
       then if prev_alpha then lower_char c
            else if in_range 97 122 c then (c - 32)%N else c
       else c) :: title_from (isalpha_ascii c) s'
  end.

Definition title (s : str) : str := title_from false s.

(** Truthiness of a string: non-empty. *)
Definition nonempty (s : str) : bool := match s with [] => false | _ => true end.

End PyStr.
Import PyStr.

(** ** Regular expressions

    The patterns of the source are built from literals, character classes,
    sequence, alternation, groups, [\b], and repetition of a single character
    class (greedy or lazy).  [run] is the backtracking matcher of Python's
    [re]: alternatives are tried from the left, a greedy repetition takes
    the longest run first and gives characters back, a lazy one takes the
    shortest first.  The continuation [k] is the rest of the pattern.
    Where a pattern is quoted in a comment, a blank separates a star from a
    closing parenthesis that follows it in the source. *)

Module Re.

Inductive regex : Type :=
| Eps
| Cls (p : char -> bool)
| Seq (r1 r2 : regex)
| Alt (r1 r2 : regex)
| Star (p : char -> bool)
| StarLazy (p : char -> bool)
| Grp (i : nat) (r : regex)
| WordB.

(** The groups matched so far, the latest first. *)
Definition captures := list (nat * str).

Fixpoint group (i : nat) (caps : captures) : option str :=
  match caps with
  | [] => None
  | (j, s) :: caps' => if Nat.eqb i j then Some s else group i caps'
  end.

Definition is_word_opt (c : option char) : bool :=
  match c with Some c => isword c | None => false end.

(** [\b]: exactly one of the characters before and after the position is a
    word character. *)
Definition at_boundary (prev : option char) (s : str) : bool :=
  xorb (is_word_opt prev) (is_word_opt (head s)).

Section Matcher.
Context {A : Type}.

Fixpoint star_greedy (p : char -> bool) (prev : option char) (s : str)
    (k : option char -> str -> option A) : option A :=
  match s with
  | c :: s' =>
      if p c then
        match star_greedy p (Some c) s' k with
        | Some x => Some x
        | None => k prev s
        end
      else k prev s
  | [] => k prev []
  end.

Fixpoint star_lazy (p : char -> bool) (prev : option char) (s : str)
    (k : option char -> str -> option A) : option A :=
  match k prev s with
  | Some x => Some x
  | None =>
      match s with
      | c :: s' => if p c then star_lazy p (Some c) s' k else None
      | [] => None
      end
  end.

Fixpoint run (r : regex) (prev : option char) (s : str) (caps : captures)
    (k : option char -> str -> captures -> option A) : option A :=
  match r with
  | Eps => k prev s caps
  | Cls p =>
      match s with
      | c :: s' => if p c then k (Some c) s' caps else None
      | [] => None
      end
  | Seq r1 r2 =>
      run r1 prev s caps (fun prev' s' caps' => run r2 prev' s' caps' k)
  | Alt r1 r2 =>
      match run r1 prev s caps k with
      | Some x => Some x
      | None => run r2 prev s caps k
      end
  | Star p => star_greedy p prev s (fun prev' s' => k prev' s' caps)
  | StarLazy p => star_lazy p prev s (fun prev' s' => k prev' s' caps)
  | Grp i r =>
      run r prev s caps
        (fun prev' s' caps' =>
           k prev' s' ((i, take (length s - length s') s) :: caps'))
  | WordB => if at_boundary prev s then k prev s caps else None
  end.
End Matcher.

(** A match of [r] that starts at the current position: the groups and the
    text left after the match. *)
Definition match_here (r : regex) (prev : option char) (s : str)
    : option (captures * str) :=
  run r prev s [] (fun _ s' caps => Some (caps, s')).

(** [re.search]: the leftmost position with a match. *)
Fixpoint search_from (r : regex) (prev : option char) (s : str)
    : option captures :=
  match match_here r prev s with
  | Some (caps, _) => Some caps
  | None =>
      match s with
      | [] => None
      | c :: s' => search_from r (Some c) s'
      end
  end.

Definition search (r : regex) (s : str) : option captures :=
  search_from r None s.

(** [re.findall]: the matches from the left, without overlap.  [skip]
    counts the characters of the last match still to be passed over.  (None
    of the source's patterns matches the empty string.) *)
Fixpoint findall_from (r : regex) (prev : option char) (s : str) (skip : nat)
    : list captures :=
  match skip with
  | S n =>
      match s with
      | [] => []
      | c :: s' => findall_from r (Some c) s' n
      end
  | O =>
      match match_here r prev s with
      | Some (caps, s_end) =>
          caps ::
          match s with
          | [] => []
          | c :: s' =>
              findall_from r (Some c) s' (length s - length s_end - 1)
          end
      | None =>
          match s with
          | [] => []
          | c :: s' => findall_from r (Some c) s' 0
          end
      end
  end.

Definition findall (r : regex) (s : str) : list captures :=
  findall_from r None s 0.

(** The value [findall] reports for a group: the empty string when the
    group took no part in the match. *)
Definition group_text (i : nat) (caps : captures) : str :=
  match group i caps with Some s => s | None => [] end.

(** [re.search(r, s)] as a truth value. *)
Definition is_match (r : regex) (s : str) : bool :=
  match search r s with Some _ => true | None => false end.

(** [re.findall] for a pattern without groups: the texts matched. *)
Definition matched_texts (r : regex) (s : str) : list str :=
  map (group_text 0) (findall (Grp 0 r) s).

(** *** Pattern syntax *)

Definition chr (c : char) : regex := Cls (N.eqb c).
(** A character of the pattern under [re.IGNORECASE]. *)
Definition chr_ci (c : char) : regex :=
  Cls (fun x => (lower_char x =? lower_char c)%N).

Fixpoint seq_of (f : char -> regex) (s : str) : regex :=
  match s with
  | [] => Eps
  | [c] => f c
  | c :: s' => Seq (f c) (seq_of f s')
  end.

Definition lit (s : string) : regex := seq_of chr (s2l s).
Definition lit_ci (s : string) : regex := seq_of chr_ci (s2l s).

Definition plus (p : char -> bool) : regex := Seq (Cls p) (Star p).
Definition opt (r : regex) : regex := Alt r Eps.
Definition dot (c : char) : bool := negb (c =? newline)%N.

Fixpoint seqs (rs : list regex) : regex :=
  match rs with
  | [] => Eps
  | [r] => r
  | r :: rs' => Seq r (seqs rs')
  end.

End Re.
Import Re.

(** ** Exceptions and calls to hosted services *)

(** An instance of Python's [Exception], the class the handlers of the
    source catch; [str(e)] is its message. *)
Record exn : Type := Exception { exn_str : str }.

(** The outcome of a computation that may raise. *)
Inductive result (A : Type) : Type :=
| Ok (a : A)
| Raise (e : exn).
Arguments Ok {A} a.
Arguments Raise {A} e.

#[global] Instance result_ret : MRet result := fun A a => Ok a.
#[global] Instance result_bind : MBind result := fun A B f m =>
  match m with
  | Ok a => f a
  | Raise e => Raise e
  end.

(** [try: body  except Exception as e: handler(e)] *)
Definition try_except {A : Type} (body : result A) (handler : exn -> result A)
    : result A :=
  match body with
  | Ok a => Ok a
  | Raise e => handler e
  end.

(** ** agents/career_planner_agent.py *)

Module CareerPlanner.

(** The dictionary returned by [predict_career_path]. *)
Record CareerPath : Type := {
  current_role : str;
  target_role : str;
  feasibility_score : Z;
  timeline_months : Z;
  milestones : list str;
  challenges : list str;
  pathway_description : str
}.

(** [sum(len(skill_list) for skill_list in skills.values())] *)
Definition total_skills (skills : gmap string (list str)) : nat :=
  map_fold (fun _ skill_list acc => (length skill_list + acc)%nat) 0%nat skills.

Definition skill_estimate (skills : gmap string (list str)) : Z :=
  let n := total_skills skills in
  if (n =? 0)%nat then 3
  else if (n <? 3)%nat then 4
  else if (n <? 6)%nat then 6
  else 7.

Definition _calculate_fallback_path (current target : str)
    (skills : gmap string (list str)) : CareerPath :=
  {| current_role := current;
     target_role := target;
     feasibility_score := skill_estimate skills;
     timeline_months := 12;
     milestones := [s2l "Gain required skills"; s2l "Build portfolio";
                    s2l "Network in target industry"; s2l "Apply strategically"];
     challenges := [s2l "Skill acquisition"; s2l "Market competition";
                    s2l "Experience requirements"];
     pathway_description := s2l "Standard career transition path" |}.

(** The pattern "FEASIBILITY:\s*(\d+)/10" with [re.IGNORECASE]. *)
Definition re_feasibility : regex :=
  seqs [lit_ci "FEASIBILITY:"; Star isspace; Grp 1 (plus isdecimal); lit_ci "/10"].

(** The pattern "(\d+)\s*(?:/|out of)\s*10" with [re.IGNORECASE]. *)
Definition re_out_of_ten : regex :=
  seqs [Grp 1 (plus isdecimal); Star isspace; Alt (lit_ci "/") (lit_ci "out of");
        Star isspace; lit_ci "10"].

(** The pattern "feasibility[:\s]+(\d+)" with [re.IGNORECASE]. *)
Definition re_feasibility_number : regex :=
  seqs [lit_ci "feasibility"; plus (fun c => (c =? 58)%N || isspace c);
        Grp 1 (plus isdecimal)].

(** The pattern "(\d+)\s*(?:to\s* )?(\d+)?\s*months?" with [re.IGNORECASE]. *)
Definition re_months : regex :=
  seqs [Grp 1 (plus isdecimal); Star isspace;
        opt (Seq (lit_ci "to") (Star isspace));
        opt (Grp 2 (plus isdecimal)); Star isspace;
        lit_ci "month"; opt (lit_ci "s")].

(** The three patterns tried in turn; [None] when none matches. *)
Definition parse_feasibility (text : str) : option Z :=
  match search re_feasibility text with
  | Some m => Some (int_of (group_text 1 m))
  | None =>
      match findall re_out_of_ten text with
      | m :: _ => Some (int_of (group_text 1 m))
      | [] =>
          match search re_feasibility_number text with
          | Some m => Some (int_of (group_text 1 m))
          | None => None
          end
      end
  end.

Definition parse_timeline (text : str) : Z :=
  if contains (s2l "month") (lower text) then
    match findall re_months text with
    | m :: _ =>
        int_of (if nonempty (group_text 2 m) then group_text 2 m
                else group_text 1 m)
    | [] => 12
    end
  else 12.

(** One turn of the loop over the lines that collects the milestones. *)
Definition milestone_step (st : list str * bool) (line : str) : list str * bool :=
  let '(ms, in_milestones) := st in
  if contains (s2l "milestone") (lower line) then (ms, true)
  else if in_milestones &&
          (startswith (s2l "-") (strip line) || startswith [bullet] (strip line)
           || startswith (str_of_nat (length ms + 1)) (strip line))
  then
    let milestone :=
      strip (lstrip_chars (s2l "-" ++ [bullet] ++ s2l "0123456789.") (strip line)) in
    if nonempty milestone && (10 <? length milestone)%nat
    then (ms ++ [milestone], in_milestones)
    else (ms, in_milestones)
  else (ms, in_milestones).

Definition parse_milestones (text : str) : list str :=
  fst (fold_left milestone_step (split newline text) ([], false)).

Definition challenge_step (st : list str * bool) (line : str) : list str * bool :=
  let '(cs, in_challenges) := st in
  if contains (s2l "challenge") (lower line) || contains (s2l "obstacle") (lower line)
  then (cs, true)
  else if in_challenges &&
          (startswith (s2l "-") (strip line) || startswith [bullet] (strip line))
  then
    let challenge := strip (lstrip_chars (s2l "-" ++ [bullet]) (strip line)) in
    if nonempty challenge then (cs ++ [challenge], in_challenges)
    else (cs, in_challenges)
  else (cs, in_challenges).

Definition _extract_challenges (text : str) : list str :=
  match fst (fold_left challenge_step (split newline text) ([], false)) with
  | [] => [s2l "Skill acquisition"; s2l "Market competition"]
  | cs => take 5 cs
  end.

Definition _parse_career_path (text current target : str)
    (skills : gmap string (list str)) : CareerPath :=
  let feasibility :=
    match parse_feasibility text with
    | Some f => f
    | None => skill_estimate skills
    end in
  let ms :=
    match parse_milestones text with
    | [] => [s2l "Build foundational skills"; s2l "Gain relevant experience";
             s2l "Expand network"; s2l "Apply to target roles"]
    | ms => ms
    end in
  {| current_role := current;
     target_role := target;
     feasibility_score := Z.min 10 (Z.max 1 feasibility);
     timeline_months := parse_timeline text;
     milestones := take 6 ms;
     pathway_description := text;
     challenges := _extract_challenges text |}.

(** A bridge role: the dictionary [current_role] of [_parse_bridge_roles],
    a key that was not set being [None]. *)
Record BridgeRole : Type := {
  role_title : option str;
  rationale : option str;
  skills_built : option (list str);
  role_timeline_months : option Z
}.

Definition empty_role : BridgeRole :=
  {| role_title := None; rationale := None; skills_built := None;
     role_timeline_months := None |}.

(** Truthiness of the dictionary: some key is set. *)
Definition role_nonempty (r : BridgeRole) : bool :=
  match role_title r, rationale r, skills_built r, role_timeline_months r with
  | None, None, None, None => false
  | _, _, _, _ => true
  end.

Definition has_role_title (r : BridgeRole) : bool :=
  match role_title r with Some _ => true | None => false end.

(** The pattern "\d+". *)
Definition re_number : regex := plus isdecimal.

(** One turn of the loop of [_parse_bridge_roles] on a line. *)
Definition bridge_step (st : list BridgeRole * BridgeRole) (raw : str)
    : list BridgeRole * BridgeRole :=
  let '(roles, cur) := st in
  let line := strip raw in
  if startswith (s2l "ROLE:") line then
    (if role_nonempty cur then roles ++ [cur] else roles,
     {| role_title := Some (strip (replace (s2l "ROLE:") [] line));
        rationale := None; skills_built := None;
        role_timeline_months := None |})
  else if startswith (s2l "WHY:") line then
    (roles,
     {| role_title := role_title cur;
        rationale := Some (strip (replace (s2l "WHY:") [] line));
        skills_built := skills_built cur;
        role_timeline_months := role_timeline_months cur |})
  else if startswith (s2l "SKILLS:") line then
    let skills_text := strip (replace (s2l "SKILLS:") [] line) in
    (roles,
     {| role_title := role_title cur;
        rationale := rationale cur;
        skills_built := Some (map strip (split 44%N skills_text));
        role_timeline_months := role_timeline_months cur |})
  else if startswith (s2l "TIMELINE:") line then
    (roles,
     {| role_title := role_title cur;
        rationale := rationale cur;
        skills_built := skills_built cur;
        role_timeline_months :=
          Some (match matched_texts re_number line with
                | m :: _ => int_of m
                | [] => 12%Z
                end) |})
  else if str_eqb line (s2l "---") && role_nonempty cur then
    (roles ++ [cur], empty_role)
  else (roles, cur).

Definition _parse_bridge_roles (text : str) : list BridgeRole :=
  let '(roles, cur) := fold_left bridge_step (split newline text) ([], empty_role) in
  take 5 (if role_nonempty cur && has_role_title cur then roles ++ [cur] else roles).

(** [recommend_bridge_roles] *)
Definition recommend_bridge_roles (invoke : result str) (current target : str)
    : result (list BridgeRole) :=
  try_except
    (content ← invoke; Ok (_parse_bridge_roles content))
    (fun e =>
       Ok [ {| role_title := Some (s2l "Senior " ++ current);
               rationale := Some (s2l "Deepens expertise before transition");
               skills_built := Some [s2l "Advanced technical skills"; s2l "Leadership"];
               role_timeline_months := Some 12%Z |} ]).


Inductive section : Type :=
| TargetContacts | EventsCommunities | OutreachTemplate.





(** [predict_career_path]; [invoke] is the outcome of [self.llm.invoke],
    the content of the response when it returned. *)
Definition predict_career_path (invoke : result str) (current target : str)
    (skills : gmap string (list str)) : result CareerPath :=
  try_except
    (content ← invoke;
     Ok (_parse_career_path content current target skills))
    (fun e => Ok (_calculate_fallback_path current target skills)).

End CareerPlanner.

(** ** agents/ethics_auditor_agent.py *)

Module EthicsAuditor.
#[local] Open Scope Z_scope.

(** The running state of an audit: the score and the two lists the audit
    appends to ([biases_found] and [suggestions] in [audit_resume], [issues]
    and [flags] in [audit_job_description]). *)
Record audit_state : Type := {
  st_score : Z;
  st_issues : list str;
  st_flags : list str
}.

(** Append an issue and its message and replace the score. *)
Definition report (issue msg : string) (f : Z -> Z) (st : audit_state) : audit_state :=
  {| st_score := f (st_score st);
     st_issues := st_issues st ++ [s2l issue];
     st_flags := st_flags st ++ [s2l msg] |}.

Definition add_score (d : Z) (st : audit_state) : audit_state :=
  {| st_score := st_score st + d; st_issues := st_issues st; st_flags := st_flags st |}.

(** [sum(1 for w in words if w in text)] *)
Definition count_in (words : list string) (text : str) : nat :=
  length (List.filter (fun w => contains (s2l w) text) words).

(** [list(set(l))]; the order of the result is not specified by Python, the
    elements are listed here by first occurrence. *)
Definition list_set (l : list str) : list str := remove_dups l.

(** *** [audit_resume] *)

Record ResumeAudit : Type := {
  score : Z;
  biases_found : list str;
  suggestions : list str;
  inclusive_signals : nat;
  is_biased : bool
}.

Definition resume_keywords : list string :=
  ["experience"; "skills"; "education"; "work"; "project";
   "responsibilities"; "achievements"; "degree"; "certificate";
   "position"; "role"; "company"; "team"].

(** The pattern "\b(19|20)\d{2}\b". *)
Definition re_year : regex :=
  seqs [WordB; Grp 1 (Alt (lit_ci "19") (lit_ci "20"));
        Cls isdecimal; Cls isdecimal; WordB].

(** The pattern "\b\d{2}\+?\s*years?\s+(?:of\s+)?experience\b". *)
Definition re_years_experience : regex :=
  seqs [WordB; Cls isdecimal; Cls isdecimal; opt (lit_ci "+"); Star isspace;
        lit_ci "year"; opt (lit_ci "s"); plus isspace;
        opt (Seq (lit_ci "of") (plus isspace)); lit_ci "experience"; WordB].

(** The pattern "\bsenior\s+professional\b". *)
Definition re_senior : regex :=
  seqs [WordB; lit_ci "senior"; plus isspace; lit_ci "professional"; WordB].

(** The pattern "\b(ivy\s+league|top\s+tier|elite)\b". *)
Definition re_elite : regex :=
  seqs [WordB;
        Grp 1 (Alt (seqs [lit_ci "ivy"; plus isspace; lit_ci "league"])
              (Alt (seqs [lit_ci "top"; plus isspace; lit_ci "tier"])
                   (lit_ci "elite")));
        WordB].

Definition age_patterns : list (regex * string) :=
  [(re_year, "Graduation year visible - consider removing to avoid age discrimination");
   (re_years_experience, "Extensive years mentioned - consider 'significant experience' instead");
   (re_senior, "May indicate age - consider role-specific titles")].

Definition masculine_coded : list string :=
  ["aggressive"; "competitive"; "dominant"; "decisive"; "assertive"; "ambitious"].
Definition feminine_coded : list string :=
  ["supportive"; "collaborative"; "nurturing"; "understanding"; "loyal"].
Definition inclusive_terms : list string :=
  ["diverse"; "inclusive"; "accessible"; "equitable"; "collaborative"].

Definition resume_length_check (resume_text : str) (st : audit_state) : audit_state :=
  if (length (strip resume_text) <? 50)%nat then
    report "Insufficient Content"
      "Resume too short - provide more details about your experience and skills"
      (fun _ => 30) st
  else st.

Definition resume_keyword_check (resume_text : str) (keyword_count : nat)
    (st : audit_state) : audit_state :=
  if (keyword_count =? 0)%nat && (10 <? length (strip resume_text))%nat then
    report "Invalid Content"
      "Content doesn't appear to be a resume - should include work experience, skills, education"
      (fun _ => 20) st
  else if (keyword_count <? 3)%nat && (50 <? length (strip resume_text))%nat then
    report "Low Quality Resume"
      "Resume lacks detail - include clear sections for experience, skills, and education"
      (fun s => s - 15) st
  else st.

Definition structure_bonus (threshold : nat) (keyword_count : nat)
    (st : audit_state) : audit_state :=
  if (threshold <=? keyword_count)%nat then add_score 15 st else st.

Definition age_pattern_step (resume_text : str) (st : audit_state)
    (p : regex * string) : audit_state :=
  if is_match (fst p) resume_text
  then report "Age Indicator" (snd p) (fun s => s - 5) st
  else st.

Definition gender_coded_check (text_lower : str) (st : audit_state) : audit_state :=
  let masc_count := count_in masculine_coded text_lower in
  let fem_count := count_in feminine_coded text_lower in
  let st1 :=
    if (3 <? masc_count)%nat then
      report "Gender-Coded Language (Masculine)"
        "Consider balancing masculine-coded words with neutral alternatives"
        (fun s => s - 5) st
    else st in
  if (3 <? fem_count)%nat then
    report "Gender-Coded Language (Feminine)"
      "Consider balancing feminine-coded words with neutral alternatives"
      (fun s => s - 5) st1
  else st1.

Definition elite_check (resume_text : str) (st : audit_state) : audit_state :=
  if is_match re_elite resume_text then
    report "Elite Institution Emphasis"
      "While noting education is fine, excessive emphasis on 'elite' status may trigger bias"
      (fun s => s - 3) st
  else st.

Definition inclusive_bonus (per_term : Z) (inclusive_count : nat)
    (st : audit_state) : audit_state :=
  if (0 <? inclusive_count)%nat
  then add_score (Z.of_nat inclusive_count * per_term) st
  else st.

(** The state of [audit_resume] just before its [return]. *)
Definition resume_final_state (resume_text : str) : audit_state :=
  let text_lower := strip (lower resume_text) in
  let keyword_count := count_in resume_keywords text_lower in
  let st0 := {| st_score := 70; st_issues := []; st_flags := [] |} in
  let st1 := resume_length_check resume_text st0 in
  let st2 := resume_keyword_check resume_text keyword_count st1 in
  let st3 := structure_bonus 6 keyword_count st2 in
  let st4 := fold_left (age_pattern_step resume_text) age_patterns st3 in
  let st5 := gender_coded_check text_lower st4 in
  let st6 := elite_check resume_text st5 in
  inclusive_bonus 2 (count_in inclusive_terms text_lower) st6.

Definition audit_resume (resume_text : str) : ResumeAudit :=
  let text_lower := strip (lower resume_text) in
  let st := resume_final_state resume_text in
  {| score := Z.max 0 (Z.min 100 (st_score st));
     biases_found := list_set (st_issues st);
     suggestions := st_flags st;
     inclusive_signals := count_in inclusive_terms text_lower;
     is_biased := (st_score st <? 70)%Z |}.

(** *** [audit_job_description] *)

Record JobAudit : Type := {
  job_score : Z;
  issues : list str;
  flags : list str;
  job_inclusive_signals : nat;
  is_discriminatory : bool
}.

Definition job_keywords : list string :=
  ["role"; "position"; "responsibilities"; "requirements"; "qualifications";
   "experience"; "skills"; "duties"; "job"; "candidate"; "team"; "company";
   "salary"; "benefits"; "work"; "hiring"].

Definition age_terms : list (string * string) :=
  [("digital native", "May exclude older workers");
   ("recent graduate", "Excludes experienced professionals");
   ("young and energetic", "Direct age discrimination");
   ("new grad", "Age-restrictive")].

(** The two groups of [gendered_terms]. *)
Definition gendered_terms : list (list string) :=
  [["rockstar"; "guru"; "ninja"; "wizard"];
   ["aggressive"; "dominant"; "competitive"]].

Definition inclusive_phrases : list string :=
  ["equal opportunity employer"; "diverse"; "inclusive";
   "all qualified applicants"; "disability"; "veteran"; "accommodation"].

(** The pattern "\b(he|him|his)\b". *)
Definition re_pronoun : regex :=
  seqs [WordB; Grp 1 (Alt (lit_ci "he") (Alt (lit_ci "him") (lit_ci "his"))); WordB].

(** The pattern "\brequire[sd]?\s+.*\b(phd|master\'?s|mba)\b". *)
Definition re_degree : regex :=
  seqs [WordB; lit "require"; opt (Cls (fun c => (c =? 115)%N || (c =? 100)%N));
        plus isspace; Star dot; WordB;
        Grp 1 (Alt (lit "phd")
              (Alt (seqs [lit "master"; opt (lit "'"); lit "s"]) (lit "mba")));
        WordB].

(** The pattern "\b(\d{1,2})\+?\s*years?\s+.*\brequired\b". *)
Definition re_years_required : regex :=
  seqs [WordB; Grp 1 (Seq (Cls isdecimal) (opt (Cls isdecimal))); opt (lit "+");
        Star isspace; lit "year"; opt (lit "s"); plus isspace; Star dot;
        WordB; lit "required"; WordB].

Definition job_length_check (job_desc : str) (st : audit_state) : audit_state :=
  if (length (strip job_desc) <? 50)%nat then
    report "Insufficient Content"
      "Job description too short - should provide detailed role information"
      (fun _ => 30) st
  else st.

Definition job_keyword_check (job_desc : str) (keyword_count : nat)
    (st : audit_state) : audit_state :=
  if (keyword_count =? 0)%nat && (10 <? length (strip job_desc))%nat then
    report "Invalid Content"
      "Content doesn't appear to be a job description - no job-related keywords found"
      (fun _ => 20) st
  else if (keyword_count <? 3)%nat && (50 <? length (strip job_desc))%nat then
    report "Low Quality Content"
      "Job description lacks detail - should include responsibilities, requirements, etc."
      (fun s => s - 20) st
  else st.

Definition pronoun_check (job_desc : str) (st : audit_state) : audit_state :=
  if is_match re_pronoun job_desc then
    report "Gendered Pronouns"
      "Uses 'he/him' - use gender-neutral 'they/them' instead"
      (fun s => s - 10) st
  else st.

(** One turn of the loop over [age_terms]. *)
Definition age_term_step (text_lower : str) (st : audit_state)
    (p : string * string) : audit_state :=
  if contains (s2l (fst p)) text_lower then
    {| st_score := st_score st - 10;
       st_issues := st_issues st ++ [s2l "Age Discrimination"];
       st_flags := st_flags st ++
         [s2l "'" ++ title (s2l (fst p)) ++ s2l "' - " ++ s2l (snd p)] |}
  else st.

Definition gendered_flag (term : string) : str :=
  s2l "'" ++ title (s2l term) ++ s2l "' is masculine-coded - use neutral alternatives".

(** One turn of the inner loop over a group of [gendered_terms]. *)
Definition gendered_term_step (text_lower : str) (st : audit_state)
    (term : string) : audit_state :=
  if contains (s2l term) text_lower then
    {| st_score := st_score st - 5;
       st_issues := st_issues st ++ [s2l "Gender-Coded Language"];
       st_flags := st_flags st ++ [gendered_flag term] |}
  else st.

Definition gendered_language_check (text_lower : str) (st : audit_state)
    : audit_state :=
  fold_left (fun st term_group => fold_left (gendered_term_step text_lower) term_group st)
    gendered_terms st.

Definition credential_check (text_lower : str) (st : audit_state) : audit_state :=
  if is_match re_degree text_lower then
    if negb (contains (s2l "or equivalent") text_lower)
       && negb (contains (s2l "preferred") text_lower)
    then report "Credential Inflation"
           "Strict degree requirement may exclude qualified candidates"
           (fun s => s - 8) st
    else st
  else st.

Definition experience_check (job_desc : str) (st : audit_state) : audit_state :=
  if is_match re_years_required job_desc then
    report "Experience Barrier"
      "Consider if all years are truly required or if skills matter more"
      (fun s => s - 5) st
  else st.

(** The state of [audit_job_description] before the loop over
    [gendered_terms]. *)
Definition job_state_before_gendered (job_desc : str) : audit_state :=
  let text_lower := strip (lower job_desc) in
  let keyword_count := count_in job_keywords text_lower in
  let st0 := {| st_score := 70; st_issues := []; st_flags := [] |} in
  let st1 := job_length_check job_desc st0 in
  let st2 := job_keyword_check job_desc keyword_count st1 in
  let st3 := structure_bonus 5 keyword_count st2 in
  let st4 := pronoun_check job_desc st3 in
  fold_left (age_term_step text_lower) age_terms st4.

(** The checks of [audit_job_description] after that loop. *)
Definition job_checks_after_gendered (job_desc : str) (st : audit_state)
    : audit_state :=
  let text_lower := strip (lower job_desc) in
  let st1 := credential_check text_lower st in
  let st2 := experience_check job_desc st1 in
  inclusive_bonus 3 (count_in inclusive_phrases text_lower) st2.

(** The state of [audit_job_description] just before its [return]. *)
Definition job_final_state (job_desc : str) : audit_state :=
  job_checks_after_gendered job_desc
    (gendered_language_check (strip (lower job_desc))
       (job_state_before_gendered job_desc)).

Definition audit_job_description (job_desc : str) : JobAudit :=
  let text_lower := strip (lower job_desc) in
  let st := job_final_state job_desc in
  {| job_score := Z.max 0 (Z.min 100 (st_score st));
     issues := list_set (st_issues st);
     flags := st_flags st;
     job_inclusive_signals := count_in inclusive_phrases text_lower;
     is_discriminatory := (st_score st <? 65)%Z |}.

End EthicsAuditor.

(** ** agents/personalization_agent.py *)

Module Personalization.
#[local] Open Scope Z_scope.

Record AuditResult : Type := {
  score : Z;
  flags : list str;
  is_biased : bool
}.

Definition bias_words : list string :=
  ["ninja"; "rockstar"; "guru"; "dominant"; "aggressive"; "young"; "energetic";
   "competitive"; "ambitious"; "assertive"; "strong"; "dynamic"].

Definition inclusive_words : list string :=
  ["diverse"; "inclusive"; "equitable"; "accessible"; "flexible";
   "collaborative"; "supportive"; "balanced"; "equal opportunity"].

(** [[word for word in words if word in text_lower]] *)
Definition found_in (words : list string) (text_lower : str) : list string :=
  List.filter (fun word => contains (s2l word) text_lower) words.

(** The score and the flags after the deduction for biased terms. *)
Definition bias_penalty (found_bias : list string) (st : Z * list str) : Z * list str :=
  match found_bias with
  | [] => st
  | _ =>
      (fst st - Z.of_nat (length found_bias) * 8,
       snd st ++ [s2l "Potentially biased terms: " ++
                  join (s2l ", ") (map s2l (take 3 found_bias))])
  end.

Definition inclusive_reward (found_inclusive : list string) (st : Z * list str)
    : Z * list str :=
  match found_inclusive with
  | [] => st
  | _ => (Z.min (fst st + Z.of_nat (length found_inclusive) * 4) 100, snd st)
  end.

Definition length_penalty (job_text : str) (st : Z * list str) : Z * list str :=
  if (2000 <? length job_text)%nat then (fst st - 5, snd st) else st.

(** [caps_ratio > 0.15], the ratio of two integers compared exactly:
    [caps / max(len, 1) > 15 / 100]. *)
Definition caps_penalty (job_text : str) (st : Z * list str) : Z * list str :=
  let caps := length (List.filter isupper job_text) in
  if (3 * Z.of_nat (Nat.max (length job_text) 1) <? 20 * Z.of_nat caps)
  then (fst st - 10, snd st ++ [s2l "Excessive capitalization detected"])
  else st.

(** The score and the flags of the heuristic before the result is built. *)
Definition heuristic_state (job_text : str) : Z * list str :=
  let text_lower := lower job_text in
  let st1 := bias_penalty (found_in bias_words text_lower) (75, []) in
  let st2 := inclusive_reward (found_in inclusive_words text_lower) st1 in
  let st3 := length_penalty job_text st2 in
  caps_penalty job_text st3.

(** The branch of [audit_job] taken when [audit_enabled] is false. *)
Definition audit_job_heuristic (job_text : str) : AuditResult :=
  let '(score, flags) := heuristic_state job_text in
  {| score := Z.max 45 (Z.min 100 score);
     flags := match flags with
              | [] => [s2l "Basic audit completed (API unavailable)"]
              | _ => flags
              end;
     is_biased := (score <? 70) |}.

Definition fallback_result : AuditResult :=
  {| score := 70;
     flags := [s2l "Audit Skipped (Service Unavailable)"];
     is_biased := false |}.

(** The pattern "SCORE:\s*(\d+)". *)
Definition re_score : regex := seqs [lit "SCORE:"; Star isspace; Grp 1 (plus isdecimal)].

(** The pattern "FLAGS:\s*(.+)". *)
Definition re_flags : regex := seqs [lit "FLAGS:"; Star isspace; Grp 1 (plus dot)].

(** The parsing of the reply of the model. *)
Definition parse_audit (resp : str) : AuditResult :=
  let score :=
    match search re_score resp with
    | Some m => int_of (group_text 1 m)
    | None => 75
    end in
  let flags_text :=
    match search re_flags resp with
    | Some m => strip (group_text 1 m)
    | None => s2l "None"
    end in
  {| score := score;
     flags := map strip
                (List.filter (fun f => negb (str_eqb (lower (strip f)) (s2l "none")))
                   (split 44%N flags_text));
     is_biased := (score <? 70) |}.

Definition error_reason (error_msg : str) : str :=
  if contains (s2l "quota") (lower error_msg) then s2l "Quota Exceeded"
  else if contains (s2l "key") (lower error_msg) then s2l "Invalid API Key"
  else s2l "Error: " ++ take 100 error_msg.

(** [audit_job]; [audit_enabled] is the attribute set by the constructor,
    [invoke] the outcome of [self.llm.invoke] on the prompt. *)
Definition audit_job (audit_enabled : bool) (invoke : result str) (job_text : str)
    : result AuditResult :=
  if negb audit_enabled then Ok (audit_job_heuristic job_text)
  else
    try_except
      (resp ← invoke;
       if negb (nonempty resp) then Ok fallback_result
       else Ok (parse_audit resp))
      (fun e =>
         Ok {| score := 70;
               flags := [s2l "Audit Skipped (" ++ error_reason (exn_str e) ++ s2l ")"];
               is_biased := false |}).

End Personalization.

(** ** agents/skill_analyzer_agent.py *)

Module SkillAnalyzer.

(** [d.get(key, [])] *)
Definition get_list (d : gmap string (list str)) (key : string) : list str :=
  default [] (d !! key).

(** [d[key].append(x)] for a key of [d]. *)
Definition append_to (key : string) (x : str) (d : gmap string (list str))
    : gmap string (list str) :=
  alter (fun l => l ++ [x]) key d.

Definition empty_skills : gmap string (list str) :=
  <["technical" := []]> (<["soft" := []]> (<["domain" := []]> ∅)).

(** One turn of the loop of [_parse_skills] on a line. *)
Definition skills_step (st : gmap string (list str) * option string) (raw : str)
    : gmap string (list str) * option string :=
  let '(skills, current_category) := st in
  let line := strip raw in
  if contains (s2l "TECHNICAL:") (upper line) then (skills, Some "technical")
  else if contains (s2l "SOFT:") (upper line) then (skills, Some "soft")
  else if contains (s2l "DOMAIN:") (upper line) then (skills, Some "domain")
  else
    match current_category with
    | Some category =>
        if startswith (s2l "-") line then
          let skill := strip (lstrip_chars (s2l "-") line) in
          if nonempty skill && (2 <? length skill)%nat
          then (append_to category skill skills, current_category)
          else (skills, current_category)
        else (skills, current_category)
    | None => (skills, current_category)
    end.

Definition _parse_skills (text : str) : gmap string (list str) :=
  fst (fold_left skills_step (split newline text) (empty_skills, None)).

(** [extract_skills_from_text] *)
Definition extract_skills_from_text (invoke : result str)
    : result (gmap string (list str)) :=
  try_except
    (content ← invoke; Ok (_parse_skills content))
    (fun e => Ok empty_skills).

Definition stop_words : gset str :=
  list_to_set (map s2l ["and"; "or"; "the"; "in"; "with"; "for"; "to"; "of"; "a"; "an"]).

(** The pattern "\w+". *)
Definition re_word : regex := plus isword.

(** [set(re.findall(r'\w+', skill.lower())) - stop_words] *)
Definition skill_words (skill : str) : gset str :=
  list_to_set (matched_texts re_word (lower skill)) ∖ stop_words.

(** [_skills_similar]; the quotient of the two sizes is compared with one
    half exactly. *)
Definition _skills_similar (skill1 skill2 : str) : bool :=
  let words1 := skill_words skill1 in
  let words2 := skill_words skill2 in
  if (size words1 =? 0)%nat || (size words2 =? 0)%nat then false
  else
    let shared := words1 ∩ words2 in
    (Nat.max (size words1) (size words2) <=? 2 * size shared)%nat.

(** The test of the inner loop of [analyze_skill_gaps] on a job skill and a
    resume skill. *)
Definition skill_matches (job_skill resume_skill : str) : bool :=
  let job_skill_lower := lower job_skill in
  let resume_skill_lower := lower resume_skill in
  contains job_skill_lower resume_skill_lower
  || contains resume_skill_lower job_skill_lower
  || _skills_similar job_skill_lower resume_skill_lower.

(** The gap list a category reports to. *)
Definition severity (category : string) : string :=
  if String.eqb category "technical" then "critical"
  else if String.eqb category "domain" then "moderate"
  else "minor".

(** The body of the loop over the job skills of a category; the inner loop
    over the resume skills stops at the first match. *)
Definition job_skill_step (resume : list str) (category : string)
    (st : gmap string (list str) * gmap string (list str)) (job_skill : str)
    : gmap string (list str) * gmap string (list str) :=
  let '(gaps, matched) := st in
  if existsb (skill_matches job_skill) resume
  then (gaps, append_to category job_skill matched)
  else (append_to (severity category) job_skill gaps, matched).

Definition category_step (resume_skills job_skills : gmap string (list str))
    (st : gmap string (list str) * gmap string (list str)) (category : string)
    : gmap string (list str) * gmap string (list str) :=
  fold_left (job_skill_step (get_list resume_skills category) category)
    (get_list job_skills category) st.

Definition categories : list string := ["technical"; "soft"; "domain"].

Definition empty_gaps : gmap string (list str) :=
  <["critical" := []]> (<["moderate" := []]> (<["minor" := []]> ∅)).

(** [round(x, 1)] on exact rationals: the nearest multiple of one tenth,
    a tie going to the even one. *)
Definition round_half_even (q : Q) : Z :=
  let f := Qfloor q in
  match Qcompare (q - inject_Z f) (1 # 2) with
  | Lt => f
  | Gt => (f + 1)%Z
  | Eq => if Z.even f then f else (f + 1)%Z
  end.

Definition round1 (q : Q) : Q := (inject_Z (round_half_even (q * 10)) / 10)%Q.

Record Analysis : Type := {
  gaps : gmap string (list str);
  matched : gmap string (list str);
  match_percentage : Q;
  resume_skills : gmap string (list str);
  job_skills : gmap string (list str)
}.

(** [sum(len(d[c]) for c in d)] *)
Definition total_length (d : gmap string (list str)) : nat :=
  map_fold (fun _ l acc => (length l + acc)%nat) 0%nat d.

(** [analyze_skill_gaps]; the quotient and the percentage are exact
    rationals.  The sets [resume_set] and [job_set] that the source builds
    in the loop are not read afterwards and are left out. *)
Definition analyze_skill_gaps (resume_skills job_skills : gmap string (list str))
    : Analysis :=
  let '(gaps, matched) :=
    fold_left (category_step resume_skills job_skills) categories
      (empty_gaps, empty_skills) in
  let total_required :=
    foldr (fun c acc => (length (get_list job_skills c) + acc)%nat) 0%nat categories in
  let total_matched := total_length matched in
  let match_percentage :=
    if (0 <? total_required)%nat
    then (inject_Z (Z.of_nat total_matched) / inject_Z (Z.of_nat total_required) * 100)%Q
    else 0%Q in
  {| gaps := gaps;
     matched := matched;
     match_percentage := round1 match_percentage;
     resume_skills := resume_skills;
     job_skills := job_skills |}.

End SkillAnalyzer.

(** ** agents/interview_coach_agent.py *)

Module InterviewCoach.
#[local] Open Scope Z_scope.

Record Feedback : Type := {
  strengths : list str;
  improvements : list str
}.

Record Evaluation : Type := {
  score : Z;
  feedback : str;
  is_correct : str;
  better_answer : str;
  detailed_analysis : Feedback
}.

Inductive feedback_section : Type := Strengths | Improvements.

(** One turn of the loop of [_parse_feedback] on a line. *)
Definition feedback_step (st : list str * list str * option feedback_section)
    (raw : str) : list str * list str * option feedback_section :=
  let '(strengths, improvements, current_section) := st in
  let line := strip raw in
  if contains (s2l "Strengths:") line then (strengths, improvements, Some Strengths)
  else if contains (s2l "Improvements:") line
          || contains (s2l "Areas for Improvement") line
  then (strengths, improvements, Some Improvements)
  else if startswith (s2l "-") line || startswith [bullet] line then
    let item := strip (lstrip_chars (s2l "-" ++ [bullet]) line) in
    match current_section with
    | Some Strengths =>
        if nonempty item then (strengths ++ [item], improvements, current_section)
        else st
    | Some Improvements =>
        if nonempty item then (strengths, improvements ++ [item], current_section)
        else st
    | None => st
    end
  else st.

Definition _parse_feedback (feedback_text : str) : Feedback :=
  let '(strengths, improvements, _) :=
    fold_left feedback_step (split newline feedback_text) ([], [], None) in
  {| strengths := take 3 strengths; improvements := take 3 improvements |}.

(** The first line of the text that contains the label. *)
Definition first_line_with (label : str) (text : str) : option str :=
  head (List.filter (contains label) (split newline text)).

(** The score read from the reply; [int] raises on a superscript digit, which
    [str.isdigit] lets through, and the handler around it keeps the default. *)
Definition parse_score (feedback_text : str) : Z :=
  if contains (s2l "Score:") feedback_text then
    match first_line_with (s2l "Score:") feedback_text with
    | Some score_line =>
        let score_str := List.filter isdigit score_line in
        if nonempty score_str then
          if forallb isdecimal score_str then int_of score_str else 5
        else 5
    | None => 5
    end
  else 5.

Definition parse_correctness (feedback_text : str) : str :=
  if contains (s2l "Correctness:") feedback_text then
    match first_line_with (s2l "Correctness:") feedback_text with
    | Some l =>
        let correctness_line := lower l in
        if contains (s2l "incorrect") correctness_line then s2l "incorrect"
        else if contains (s2l "partially") correctness_line then s2l "partial"
        else if contains (s2l "correct") correctness_line then s2l "correct"
        else s2l "unknown"
    | None => s2l "unknown"
    end
  else s2l "unknown".

(** The lines from the one with the label on. *)
Fixpoint lines_from (label : str) (lines : list str) : list str :=
  match lines with
  | [] => []
  | l :: rest => if contains label l then lines else lines_from label rest
  end.

(** The loop that collects the lines of the better answer; it stops at the
    line that starts the next section. *)
Fixpoint better_lines (lines : list str) : list str :=
  match lines with
  | [] => []
  | line :: rest =>
      if nonempty (strip line)
         && negb (startswith (s2l "STAR Method:") (strip line)
                  || startswith (s2l "Score:") (strip line)
                  || startswith (s2l "Correctness:") (strip line))
      then strip (replace (s2l "Better Answer:") [] line) :: better_lines rest
      else if startswith (s2l "STAR Method:") (strip line) then []
      else better_lines rest
  end.

Definition parse_better_answer (feedback_text : str) : str :=
  if contains (s2l "Better Answer:") feedback_text then
    strip (join [newline]
             (better_lines (lines_from (s2l "Better Answer:")
                              (split newline feedback_text))))
  else [].

(** [evaluate_answer]; [invoke] is the outcome of [llm.invoke]. *)
Definition evaluate_answer (invoke : result str) : result Evaluation :=
  try_except
    (feedback_text ← invoke;
     Ok {| score := Z.min 10 (Z.max 1 (parse_score feedback_text));
           feedback := feedback_text;
           is_correct := parse_correctness feedback_text;
           better_answer := parse_better_answer feedback_text;
           detailed_analysis := _parse_feedback feedback_text |})
    (fun e =>
       Ok {| score := 5;
             feedback := s2l "Error during evaluation: " ++ exn_str e
                         ++ [newline; newline]
                         ++ s2l "Please try again or check your GROQ_API_KEY configuration.";
             is_correct := s2l "error";
             better_answer := [];
             detailed_analysis :=
               {| strengths := [];
                  improvements := [s2l "Unable to evaluate - technical error occurred"] |} |}).

End InterviewCoach.

(** ** agents/search_agent.py *)

Module Search.
#[local] Open Scope Z_scope.

Record JobSearchConfig : Type := {
  job_title : str;
  location : option str;
  work_style : option str;
  num_jobs : Z
}.

(** A result of the search provider. *)
Record Hit : Type := {
  hit_url : str;
  hit_title : option str;
  hit_text : option str;
  hit_published_date : option str
}.

(** An entry of [raw_results]. *)
Record Job : Type := {
  title : option str;
  url : str;
  text : str;
  published_date : option str
}.

Record SearchResult : Type := {
  raw_results : list Job;
  status : str;
  count : nat
}.

Definition job_url_patterns : list string :=
  ["/job/"; "/jobs/"; "/career"; "/apply"; "/position";
   "/opening"; "/vacancy"; "/hiring"; "/recruit"].

Definition exclude_patterns : list string :=
  ["/blog/"; "/news/"; "/article/"; "/post/"; "/story/";
   "/updates/"; "/press/"; "/media/"; "/tips/"; "/guide/"; "/advice/";
   "/search/"; "/browse/"; "/directory/"; "/list/"].

Definition aggregated_phrases : list string :=
  ["jobs in"; "job openings in"; "positions in"; "vacancies in";
   "jobs available"; "job listings"; "careers in";
   "remote jobs"; "job search"; "find jobs"; "jobs at";
   "hiring for"; "open positions"; "employment opportunities";
   "fully remote"; "best companies"].

Definition job_content_indicators : list string :=
  ["apply now"; "submit application"; "job description";
   "requirements:"; "responsibilities:"; "qualifications:";
   "salary"; "compensation"; "benefits"; "experience required";
   "apply for this job"; "send resume"; "submit cv";
   "job summary"; "about the role"; "what you will do"].

(** The pattern "\d+\s+.*?\bjobs?\b". *)
Definition re_count_jobs : regex :=
  seqs [plus isdecimal; plus isspace; StarLazy dot; WordB; lit "job";
        opt (lit "s"); WordB].

(** [x.lower() if x else ""] *)
Definition lower_or_empty (x : option str) : str :=
  match x with
  | Some s => if nonempty s then lower s else []
  | None => []
  end.

Definition _is_job_posting (url : str) (title text : option str) : bool :=
  let url_lower := lower url in
  if any_in exclude_patterns url_lower then false
  else
    let title_lower := lower_or_empty title in
    if is_match re_count_jobs title_lower then false
    else if any_in aggregated_phrases title_lower then false
    else
      let text_lower := lower_or_empty text in
      let indicator_count :=
        length (List.filter
                  (fun indicator => contains (s2l indicator) text_lower
                                    || contains (s2l indicator) title_lower)
                  job_content_indicators) in
      let has_job_url := any_in job_url_patterns url_lower in
      let has_strong_content := (2 <=? indicator_count)%nat in
      has_job_url || has_strong_content.

Definition job_of_hit (r : Hit) : Job :=
  {| title := hit_title r;
     url := hit_url r;
     text := match hit_text r with
             | Some t => if nonempty t then t
                         else s2l "Job opportunity. Visit link for details."
             | None => s2l "Job opportunity. Visit link for details."
             end;
     published_date := hit_published_date r |}.

(** The loop over [res.results]; it returns [all_results] when the results
    are used up or the [break] is reached. *)
Fixpoint collect (num_jobs : Z) (results : list Hit) (all_results : list Job)
    (seen_urls : gset str) : list Job :=
  match results with
  | [] => all_results
  | r :: rest =>
      if bool_decide (hit_url r ∉ seen_urls) then
        if _is_job_posting (hit_url r) (hit_title r) (hit_text r) then
          let all_results' := all_results ++ [job_of_hit r] in
          if (num_jobs * 2 <=? Z.of_nat (length all_results'))
          then all_results'
          else collect num_jobs rest all_results' ({[hit_url r]} ∪ seen_urls)
        else collect num_jobs rest all_results seen_urls
      else collect num_jobs rest all_results seen_urls
  end.

(** [search]; [invoke] is the outcome of [self.client.search_and_contents],
    the list [res.results] when it returned.  The handler only prints, so
    that the lists keep the values they had when the call raised. *)
Definition search (invoke : result (list Hit)) (config : JobSearchConfig)
    : result SearchResult :=
  all_results ←
    try_except
      (results ← invoke; Ok (collect (num_jobs config) results [] ∅))
      (fun e => Ok []);
  Ok {| raw_results := all_results;
        status := if decide (all_results = []) then s2l "no_results" else s2l "success";
        count := length all_results |}.

End Search.

(** ** agents/career_planner_agent.py: the learning roadmap *)

Module Roadmap.

Record Phase : Type := {
  phase_name : str;
  duration : str;
  focus : str;
  resources : list str;
  projects : list str
}.

Record Roadmap : Type := {
  skill_gaps : list str;
  learning_phases : list Phase;
  total_duration : str
}.

Definition _get_default_roadmap : Roadmap :=
  {| skill_gaps :=
       [s2l "Core technical skills for target role";
        s2l "Domain-specific knowledge";
        s2l "Industry best practices";
        s2l "Relevant tools and technologies"];
     learning_phases :=
       [ {| phase_name := s2l "Phase 1: Foundation Building";
            duration := s2l "3 months";
            focus := s2l "Master fundamental technical skills";
            resources := [s2l "Coursera or Udemy beginner courses";
                          s2l "Official documentation";
                          s2l "YouTube tutorials"];
            projects := [s2l "Build 2-3 small practice projects";
                         s2l "Contribute to open source"] |};
         {| phase_name := s2l "Phase 2: Intermediate Skills";
            duration := s2l "3 months";
            focus := s2l "Apply skills in real-world scenarios";
            resources := [s2l "Advanced online courses";
                          s2l "Industry certifications";
                          s2l "Professional communities"];
            projects := [s2l "Create portfolio projects";
                         s2l "Build end-to-end applications"] |} ];
     total_duration := s2l "6-9 months" |}.

Inductive section : Type := SkillGaps | InPhase | Resources | Projects.

(** The variables of the loop of [_parse_roadmap]. *)
Record parse_state : Type := {
  roadmap : Roadmap;
  current_section : option section;
  current_phase : option Phase
}.

(** The pattern "(\d+[-\s]*\d* )\s*months?" with [re.IGNORECASE]. *)
Definition re_duration : regex :=
  seqs [Grp 1 (seqs [plus isdecimal;
                     Star (fun c => (c =? 45)%N || isspace c);
                     Star isdecimal]);
        Star isspace; lit_ci "month"; opt (lit_ci "s")].

(** [m.group(0)] for the leftmost match. *)
Definition search_text (r : regex) (s : str) : option str :=
  match search (Grp 0 r) s with
  | Some m => Some (group_text 0 m)
  | None => None
  end.

(** [s.split(sep, 1)[1]]: what follows the first separator; an [IndexError]
    when there is none. *)
Fixpoint after_first (sep : char) (s : str) : option str :=
  match s with
  | [] => None
  | c :: s' => if (c =? sep)%N then Some s' else after_first sep s'
  end.

Definition index_error : exn := Exception (s2l "list index out of range").

Definition split1_second (sep : char) (s : str) : result str :=
  match after_first sep s with
  | Some rest => Ok rest
  | None => Raise index_error
  end.

(** [roadmap['learning_phases'].append(current_phase)] when there is a
    current phase. *)
Definition save_phase (r : Roadmap) (p : option Phase) : Roadmap :=
  match p with
  | Some ph => {| skill_gaps := skill_gaps r;
                  learning_phases := learning_phases r ++ [ph];
                  total_duration := total_duration r |}
  | None => r
  end.

Definition is_some {A : Type} (o : option A) : bool :=
  match o with Some _ => true | None => false end.

(** What a list item does, by the section it is in. *)
Definition add_item (item : str) (st : parse_state) : parse_state :=
  match current_section st with
  | Some SkillGaps =>
      {| roadmap := {| skill_gaps := skill_gaps (roadmap st) ++ [item];
                       learning_phases := learning_phases (roadmap st);
                       total_duration := total_duration (roadmap st) |};
         current_section := current_section st;
         current_phase := current_phase st |}
  | Some Resources =>
      match current_phase st with
      | Some ph =>
          {| roadmap := roadmap st;
             current_section := current_section st;
             current_phase :=
               Some {| phase_name := phase_name ph; duration := duration ph;
                       focus := focus ph; resources := resources ph ++ [item];
                       projects := projects ph |} |}
      | None => st
      end
  | Some Projects =>
      match current_phase st with
      | Some ph =>
          {| roadmap := roadmap st;
             current_section := current_section st;
             current_phase :=
               Some {| phase_name := phase_name ph; duration := duration ph;
                       focus := focus ph; resources := resources ph;
                       projects := projects ph ++ [item] |} |}
      | None => st
      end
  | _ => st
  end.

(** One turn of the loop of [_parse_roadmap] on a line. *)
Definition roadmap_step (st : parse_state) (raw : str) : result parse_state :=
  let line := strip raw in
  if negb (nonempty line) then Ok st
  else if contains (s2l "SKILL GAP") (upper line) then
    Ok {| roadmap := roadmap st; current_section := Some SkillGaps;
          current_phase := None |}
  else if contains (s2l "TOTAL DURATION") (upper line) then
    Ok {| roadmap :=
            match search_text re_duration line with
            | Some d => {| skill_gaps := skill_gaps (roadmap st);
                           learning_phases := learning_phases (roadmap st);
                           total_duration := d |}
            | None => roadmap st
            end;
          current_section := None;
          current_phase := current_phase st |}
  else if startswith (s2l "PHASE") (upper line) then
    name ← (if contains (s2l ":") line
            then rest ← split1_second 58%N line; Ok (strip rest)
            else Ok line);
    Ok {| roadmap := save_phase (roadmap st) (current_phase st);
          current_section := Some InPhase;
          current_phase :=
            Some {| phase_name := name; duration := s2l "3 months"; focus := [];
                    resources := []; projects := [] |} |}
  else if is_some (current_phase st) && contains (s2l "DURATION:") (upper line) then
    rest ← split1_second 58%N line;
    Ok {| roadmap := roadmap st; current_section := current_section st;
          current_phase :=
            option_map (fun ph =>
              {| phase_name := phase_name ph; duration := strip rest;
                 focus := focus ph; resources := resources ph;
                 projects := projects ph |}) (current_phase st) |}
  else if is_some (current_phase st) && contains (s2l "FOCUS:") (upper line) then
    rest ← split1_second 58%N line;
    Ok {| roadmap := roadmap st; current_section := current_section st;
          current_phase :=
            option_map (fun ph =>
              {| phase_name := phase_name ph; duration := duration ph;
                 focus := strip rest; resources := resources ph;
                 projects := projects ph |}) (current_phase st) |}
  else if is_some (current_phase st) && contains (s2l "RESOURCE") (upper line) then
    Ok {| roadmap := roadmap st; current_section := Some Resources;
          current_phase := current_phase st |}
  else if is_some (current_phase st) && contains (s2l "PROJECT") (upper line) then
    Ok {| roadmap := roadmap st; current_section := Some Projects;
          current_phase := current_phase st |}
  else if startswith (s2l "-") line || startswith [bullet] line then
    let item := strip (lstrip_chars (s2l "-" ++ [bullet]) line) in
    if negb (nonempty item) then Ok st else Ok (add_item item st)
  else Ok st.

(** A loop whose body may raise. *)
Fixpoint for_each {S B : Type} (f : S -> B -> result S) (l : list B) (st : S)
    : result S :=
  match l with
  | [] => Ok st
  | x :: l' => st' ← f st x; for_each f l' st'
  end.

Definition _parse_roadmap (text : str) : result Roadmap :=
  st ← for_each roadmap_step (split newline text)
         {| roadmap := {| skill_gaps := []; learning_phases := [];
                          total_duration := s2l "6-9 months" |};
            current_section := None;
            current_phase := None |};
  let r := save_phase (roadmap st) (current_phase st) in
  match skill_gaps r, learning_phases r with
  | [], [] => Ok _get_default_roadmap
  | _, _ =>
      Ok {| skill_gaps :=
              match skill_gaps r with
              | [] => [s2l "Core technical skills"; s2l "Domain knowledge";
                       s2l "Best practices"]
              | gaps => gaps
              end;
            learning_phases :=
              match learning_phases r with
              | [] => [ {| phase_name := s2l "Learning Phase";
                           duration := s2l "3-6 months";
                           focus := s2l "Build required skills for target role";
                           resources := [s2l "Online courses"; s2l "Documentation";
                                         s2l "Practice"];
                           projects := [s2l "Build portfolio projects"] |} ]
              | phases => phases
              end;
            total_duration := total_duration r |}
  end.

(** [generate_skill_roadmap]; [invoke] is the outcome of [self.llm.invoke]. *)
Definition generate_skill_roadmap (invoke : result str) : result Roadmap :=
  try_except
    (content ← invoke; _parse_roadmap content)
    (fun e => Ok _get_default_roadmap).

End Roadmap.

(** ** agents/skill_analyzer_agent.py: learning resources *)

Module Learning.

(** A recommendation: the dictionary [current_rec] of
    [_parse_recommendations], a key that was not set being [None]. *)
Record Recommendation : Type := {
  skill : option str;
  course : option str;
  platform : option str;
  duration : option str;
  priority : option str
}.

Definition empty_rec : Recommendation :=
  {| skill := None; course := None; platform := None; duration := None;
     priority := None |}.

(** Truthiness of the dictionary: some key is set. *)
Definition rec_nonempty (r : Recommendation) : bool :=
  match skill r, course r, platform r, duration r, priority r with
  | None, None, None, None, None => false
  | _, _, _, _, _ => true
  end.

Definition has_skill (r : Recommendation) : bool :=
  match skill r with Some _ => true | None => false end.

(** [line.replace(label, '').strip()] *)
Definition field_value (label : string) (line : str) : str :=
  strip (replace (s2l label) [] line).

(** One turn of the loop of [_parse_recommendations] on a line. *)
Definition rec_step (st : list Recommendation * Recommendation) (raw : str)
    : list Recommendation * Recommendation :=
  let '(recs, cur) := st in
  let line := strip raw in
  if startswith (s2l "SKILL:") line then
    (if rec_nonempty cur then recs ++ [cur] else recs,
     {| skill := Some (field_value "SKILL:" line); course := None;
        platform := None; duration := None; priority := None |})
  else if startswith (s2l "COURSE:") line then
    (recs, {| skill := skill cur; course := Some (field_value "COURSE:" line);
              platform := platform cur; duration := duration cur;
              priority := priority cur |})
  else if startswith (s2l "PLATFORM:") line then
    (recs, {| skill := skill cur; course := course cur;
              platform := Some (field_value "PLATFORM:" line);
              duration := duration cur; priority := priority cur |})
  else if startswith (s2l "DURATION:") line then
    (recs, {| skill := skill cur; course := course cur; platform := platform cur;
              duration := Some (field_value "DURATION:" line);
              priority := priority cur |})
  else if startswith (s2l "PRIORITY:") line then
    (recs, {| skill := skill cur; course := course cur; platform := platform cur;
              duration := duration cur;
              priority := Some (field_value "PRIORITY:" line) |})
  else if str_eqb line (s2l "---") && rec_nonempty cur then
    (recs ++ [cur], empty_rec)
  else (recs, cur).

Definition _parse_recommendations (text : str) : list Recommendation :=
  let '(recs, cur) := fold_left rec_step (split newline text) ([], empty_rec) in
  if rec_nonempty cur && has_skill cur then recs ++ [cur] else recs.

(** The generic recommendation for the gap at position [i]. *)
Definition generic_rec (i : nat) (gap : str) : Recommendation :=
  {| skill := Some gap;
     course := Some (s2l "Introduction to " ++ gap);
     platform := Some (s2l "Coursera");
     duration := Some (s2l "4-6 weeks");
     priority := Some (if (i <? 3)%nat then s2l "High" else s2l "Medium") |}.

(** [recommend_learning_resources]; the model is called only when there are
    gaps, and [invoke] is the outcome of that call. *)
Definition recommend_learning_resources (invoke : result str) (gaps : list str)
    : result (list Recommendation) :=
  match gaps with
  | [] => Ok []
  | _ =>
      try_except
        (content ← invoke; Ok (_parse_recommendations content))
        (fun e => Ok (imap generic_rec (take 5 gaps)))
  end.

(** [r.get('priority') == p] *)
Definition has_priority (p : string) (r : Recommendation) : bool :=
  match priority r with
  | Some q => str_eqb q (s2l p)
  | None => false
  end.

Record LearningRoadmap : Type := {
  months_1_3 : list Recommendation;
  months_4_6 : list Recommendation;
  months_7_9 : list Recommendation;
  months_10_12 : list Recommendation
}.

Definition generate_learning_roadmap (recommendations : list Recommendation)
    : LearningRoadmap :=
  let high_priority := List.filter (has_priority "High") recommendations in
  let medium_priority := List.filter (has_priority "Medium") recommendations in
  let low_priority := List.filter (has_priority "Low") recommendations in
  {| months_1_3 := match high_priority with [] => [] | _ => take 2 high_priority end;
     months_4_6 := if (2 <? length high_priority)%nat
                   then drop 2 high_priority ++ take 2 medium_priority
                   else take 3 medium_priority;
     months_7_9 := if (2 <? length medium_priority)%nat
                   then drop 2 medium_priority ++ take 2 low_priority
                   else take 3 low_priority;
     months_10_12 := if (2 <? length low_priority)%nat
                     then drop 2 low_priority else [] |}.

End Learning.

(** ** agents/interview_coach_agent.py: the questions *)

Module Questions.

(** [l[:n]] for an integer [n]: a negative [n] counts from the end. *)
Definition slice_to {A : Type} (l : list A) (n : Z) : list A :=
  if (0 <=? n)%Z then take (Z.to_nat n) l
  else take (length l - Z.to_nat (- n)) l.

Definition behavioral_questions : list str :=
  map s2l
    ["Tell me about a time when you faced a significant challenge at work. How did you handle it?";
     "Describe a situation where you had to work with a difficult team member.";
     "What's your greatest professional accomplishment and why?";
     "How do you prioritize tasks when you have multiple deadlines?";
     "Tell me about a time when you failed. What did you learn?";
     "Describe a situation where you had to adapt to significant changes at work.";
     "Give me an example of when you showed leadership without having formal authority.";
     "Tell me about a time you had to make a difficult decision with limited information.";
     "Describe a conflict you had with a colleague and how you resolved it.";
     "Share an example of when you went above and beyond what was expected of you."].

Definition technical_questions : list str :=
  map s2l
    ["Walk me through your approach to solving a complex technical problem.";
     "How would you optimize the performance of a slow application?";
     "Explain a technical concept you recently learned to someone non-technical.";
     "Describe your experience with version control and collaboration workflows.";
     "How do you ensure code quality in your projects?";
     "What's your approach to debugging when you encounter an error you've never seen before?";
     "Explain the trade-offs between different architectural patterns you've used.";
     "How do you stay updated with new technologies and best practices?";
     "Describe a time when you had to refactor legacy code.";
     "What testing strategies do you employ in your development process?"].

Definition situational_questions : list str :=
  map s2l
    ["If you joined a team with an ongoing project in crisis, what would be your first steps?";
     "How would you handle discovering a critical bug in production just before a major release?";
     "What would you do if you disagreed with your manager's technical decision?";
     "If you had two critical tasks with the same deadline, how would you prioritize?";
     "How would you approach learning a completely new technology stack for a project?";
     "What would you do if a team member consistently missed deadlines?";
     "How would you handle receiving harsh criticism on your work?";
     "If given an impossible deadline, how would you respond?";
     "What would you do if you noticed a colleague's code had security vulnerabilities?";
     "How would you balance technical debt with new feature development?"].

(** [fallbacks.get(question_type, fallbacks["behavioral"])] *)
Definition fallbacks (question_type : str) : list str :=
  if str_eqb question_type (s2l "behavioral") then behavioral_questions
  else if str_eqb question_type (s2l "technical") then technical_questions
  else if str_eqb question_type (s2l "situational") then situational_questions
  else behavioral_questions.

(** [_get_fallback_questions]; [shuffle] is what [random.shuffle] does to
    the copy of the list on this call. *)
Definition _get_fallback_questions (shuffle : list str -> list str)
    (question_type : str) (count : Z) : list str :=
  slice_to (shuffle (fallbacks question_type)) count.

(** The lines of the reply that are kept as numbered questions. *)
Definition numbered_lines (questions_text : str) : list str :=
  map strip
    (List.filter (fun q => nonempty (strip q) && existsb isdigit (take 3 q))
       (split newline questions_text)).

(** The loop that removes the numbering. *)
Definition clean_questions (questions : list str) : list str :=
  List.filter (fun clean_q => nonempty clean_q && (10 <? length clean_q)%nat)
    (map (fun q => strip (lstrip_chars (s2l "0123456789.) ") q)) questions).

(** [generate_questions]; [invoke] is the outcome of [llm.invoke].  The
    client [llm] is built before the [try], with the key that the
    constructor of the agent has checked; building it is taken to succeed. *)
Definition generate_questions (shuffle : list str -> list str)
    (invoke : result str) (question_type : str) (count : Z) : result (list str) :=
  try_except
    (content ← invoke;
     let cleaned_questions := clean_questions (numbered_lines (strip content)) in
     if (count <=? Z.of_nat (length cleaned_questions))%Z
     then Ok (slice_to cleaned_questions count)
     else Raise (Exception (s2l "Not enough questions generated")))
    (fun e => Ok (_get_fallback_questions shuffle question_type count)).

End Questions.

(** ** agents/personalization_agent.py: the processing of the jobs *)

Module JobProcessing.

(** The class repeated at most [n] times, greedily. *)
Fixpoint rep_upto (n : nat) (p : char -> bool) : regex :=
  match n with
  | O => Eps
  | S n' => opt (Seq (Cls p) (rep_upto n' p))
  end.

(** A pattern repeated at most [n] times, greedily; for a pattern that
    matches no empty string this is its starred form on the texts of at most
    [n] characters. *)
Fixpoint star_upto (n : nat) (r : regex) : regex :=
  match n with
  | O => Eps
  | S n' => opt (Seq r (star_upto n' r))
  end.

Definition is_ascii_upper (c : char) : bool := in_range 65 90 c.
Definition is_ascii_lower (c : char) : bool := in_range 97 122 c.

(** The pattern "(?:at|company|employer):\s*([A-Z][a-zA-Z\s&]{2,30})". *)
Definition re_company : regex :=
  seqs [Alt (lit "at") (Alt (lit "company") (lit "employer")); lit ":";
        Star isspace;
        Grp 1 (let p := fun c => is_ascii_lower c || is_ascii_upper c
                                   || isspace c || (c =? 38)%N in
               seqs [Cls is_ascii_upper; Cls p; Cls p; rep_upto 28 p])].

Definition _extract_company (text : str) : option str :=
  match search re_company text with
  | Some m => Some (group_text 1 m)
  | None => None
  end.

(** The pattern "\$(\d{1,3}(?:,\d{3})*(?:k|K)?)" for a text of at most [n]
    characters. *)
Definition re_salary (n : nat) : regex :=
  seqs [lit "$";
        Grp 1 (seqs [Cls isdecimal; rep_upto 2 isdecimal;
                     star_upto n (seqs [lit ","; Cls isdecimal; Cls isdecimal;
                                        Cls isdecimal]);
                     opt (Alt (lit "k") (lit "K"))])].

Definition _extract_salary (text : str) : option str :=
  Roadmap.search_text (re_salary (length text)) text.

(** An entry of the list [process_jobs] returns. *)
Record ProcessedJob : Type := {
  title : option str;
  url : str;
  company : str;
  location : str;
  work_style : str;
  salary : option str;
  description : str;
  audit_score : Z;
  audit_flags : list str;
  is_biased : bool
}.

(** [str(x)] for a title: a string or [None]. *)
Definition str_of_title (t : option str) : str :=
  match t with Some s => s | None => s2l "None" end.

(** The text that is audited for a job. *)
Definition job_text (job : Search.Job) : str :=
  if nonempty (Search.text job) then Search.text job
  else s2l "Job at " ++ str_of_title (Search.title job)
       ++ s2l ". See job link for details.".

Definition processed (job : Search.Job) (audit : Personalization.AuditResult)
    : ProcessedJob :=
  let text := job_text job in
  {| title := Search.title job;
     url := Search.url job;
     company := match _extract_company text with
                | Some c => if nonempty c then c else s2l "Unknown Company"
                | None => s2l "Unknown Company"
                end;
     location := s2l "See details";
     work_style := s2l "Flexible";
     salary := _extract_salary text;
     description := take 500 text ++ s2l "...";
     audit_score := Personalization.score audit;
     audit_flags := Personalization.flags audit;
     is_biased := Personalization.is_biased audit |}.

(** [process_jobs] on the entries of [raw_results] that [search] returns;
    [invoke i] is the outcome of the call to the model for the job at
    position [i], made when the audit is enabled. *)
Fixpoint process_from (audit_enabled : bool) (invoke : nat -> result str)
    (i : nat) (raw_jobs : list Search.Job) : result (list ProcessedJob) :=
  match raw_jobs with
  | [] => Ok []
  | job :: rest =>
      audit ← Personalization.audit_job audit_enabled (invoke i) (job_text job);
      done ← process_from audit_enabled invoke (S i) rest;
      Ok (processed job audit :: done)
  end.

Definition process_jobs (audit_enabled : bool) (invoke : nat -> result str)
    (raw_jobs : list Search.Job) : result (list ProcessedJob) :=
  process_from audit_enabled invoke 0 raw_jobs.

End JobProcessing.

(** ** agents/search_agent.py: the query *)

Module Query.

(** [x and p(x)] for an optional string: it is there, not empty, and [p]
    holds of it. *)
Definition given (x : option str) (p : str -> bool) : bool :=
  match x with
  | Some s => nonempty s && p s
  | None => false
  end.

Definition _build_query (config : Search.JobSearchConfig) : str :=
  let query_parts := [Search.job_title config; s2l "job posting"; s2l "apply"] in
  let query_parts :=
    if given (Search.location config)
         (fun l => negb (str_eqb (lower l) (s2l "any") || str_eqb (lower l) (s2l "remote")))
    then query_parts ++ [s2l "in " ++ default [] (Search.location config)]
    else query_parts in
  let query_parts :=
    if given (Search.work_style config) (fun w => negb (str_eqb w (s2l "Any")))
    then query_parts ++ [default [] (Search.work_style config)]
    else query_parts in
  join (s2l " ") query_parts.

End Query.

(** ** agents/memory_agent.py *)

Module Memory.

(** [get_context]; [enabled] is the attribute set by the constructor and
    [invoke] the outcome of [self.memori_client.search], made when the agent
    is enabled. *)
Definition get_context (enabled : bool) (invoke : result (list str)) : result str :=
  if negb enabled then Ok []
  else
    try_except
      (results ← invoke;
       match results with
       | [] => Ok []
       | _ => Ok (join [newline] (map (fun r => s2l "- " ++ r) results))
       end)
      (fun e => Ok []).

End Memory.

(** ** Predicates of the statements *)

(** The computation returns a value: no exception leaves it. *)
Definition returns {A : Type} (m : result A) : Prop := ∃ a, m = Ok a.




(** Some resume skill of the list matches the job skill: the outcome of the
    inner loop of [analyze_skill_gaps]. *)
Definition is_matched (held : list str) (job_skill : str) : bool :=
  existsb (SkillAnalyzer.skill_matches job_skill) held.

(** The job skills of a category that the loop reports as gaps, and those it
    reports as matched. *)
Definition unmatched_of (resume job : gmap string (list str)) (category : string)
    : list str :=
  List.filter (λ s, negb (is_matched (SkillAnalyzer.get_list resume category) s))
    (SkillAnalyzer.get_list job category).

Definition matched_of (resume job : gmap string (list str)) (category : string)
    : list str :=
  List.filter (is_matched (SkillAnalyzer.get_list resume category))
    (SkillAnalyzer.get_list job category).

(** The provider result passes the filter of job postings. *)
Definition passes (r : Search.Hit) : bool :=
  Search._is_job_posting (Search.hit_url r) (Search.hit_title r) (Search.hit_text r).

(** The results the provider returned, none when the call raised. *)
Definition provided (invoke : result (list Search.Hit)) : list Search.Hit :=
  match invoke with
  | Ok results => results
  | Raise _ => []
  end.

(** A provider result that passes the filter. *)
Definition posting_hit : Search.Hit :=
  {| Search.hit_url := s2l "https://example.com/jobs/123";
     Search.hit_title := Some (s2l "Software Engineer");
     Search.hit_text := None;
     Search.hit_published_date := None |}.

(** The recommendations of the four quarters of a learning roadmap. *)
Definition scheduled (m : Learning.LearningRoadmap) : list Learning.Recommendation :=
  Learning.months_1_3 m ++ Learning.months_4_6 m ++ Learning.months_7_9 m
  ++ Learning.months_10_12 m.

(** The recommendation has one of the three priorities the roadmap reads. *)
Definition prioritised (r : Learning.Recommendation) : bool :=
  Learning.has_priority "High" r || Learning.has_priority "Medium" r
  || Learning.has_priority "Low" r.

(** The texts a pattern can match, whatever stands around them: a word
    boundary takes no character, a group matches what its pattern matches. *)
Fixpoint den (r : regex) (t : str) : Prop :=
  match r with
  | Eps | WordB => t = []
  | Cls p => ∃ c, t = [c] ∧ p c = true
  | Seq r1 r2 => ∃ t1 t2, t = t1 ++ t2 ∧ den r1 t1 ∧ den r2 t2
  | Alt r1 r2 => den r1 t ∨ den r2 t
  | Star p | StarLazy p => Forall (λ c, p c = true) t
  | Grp _ r' => den r' t
  end.

(** Every character class of the pattern lies within [P]. *)
Fixpoint classes_in (P : char → Prop) (r : regex) : Prop :=
  match r with
  | Eps | WordB => True
  | Cls p | Star p | StarLazy p => ∀ c, p c = true → P c
  | Seq r1 r2 | Alt r1 r2 => classes_in P r1 ∧ classes_in P r2
  | Grp _ r' => classes_in P r'
  end.

(** A recommendation as a reply writes it: the five fields of a block. *)
Record Course : Type := {
  c_skill : str;
  c_course : str;
  c_platform : str;
  c_duration : str;
  c_priority : str
}.

Definition rec_of (c : Course) : Learning.Recommendation :=
  {| Learning.skill := Some (c_skill c);
     Learning.course := Some (c_course c);
     Learning.platform := Some (c_platform c);
     Learning.duration := Some (c_duration c);
     Learning.priority := Some (c_priority c) |}.

(** The lines of a block in the format that the prompt of
    [recommend_learning_resources] asks for. *)
Definition written (c : Course) : list str :=
  [s2l "SKILL: " ++ c_skill c;
   s2l "COURSE: " ++ c_course c;
   s2l "PLATFORM: " ++ c_platform c;
   s2l "DURATION: " ++ c_duration c;
   s2l "PRIORITY: " ++ c_priority c;
   s2l "---"].

Definition reply_of (cs : list Course) : str :=
  join [newline] (flat_map written cs).

(** A value that a line can carry after [label]: it has no white space at
    its ends, no line break, and no occurrence of the label. *)
Definition plain (label : string) (v : str) : bool :=
  str_eqb (strip v) v && negb (char_in v newline) && negb (contains (s2l label) v).

Definition well_written (c : Course) : bool :=
  plain "SKILL:" (c_skill c) && plain "COURSE:" (c_course c)
  && plain "PLATFORM:" (c_platform c) && plain "DURATION:" (c_duration c)
  && plain "PRIORITY:" (c_priority c).

(** [st'] comes after [st] in an audit that has reported nothing so far: if
    [st'] holds no issue, [st] held none and the score did not go down. *)
Definition stays_clean (st st' : EthicsAuditor.audit_state) : Prop :=
  EthicsAuditor.st_issues st' = [] →
  EthicsAuditor.st_issues st = []
  ∧ (EthicsAuditor.st_score st ≤ EthicsAuditor.st_score st')%Z.

(** What holds of the dictionary of a bridge role while it is filled: a list
    of skills that was set is not empty, a number of months is not negative. *)
Definition role_fields_ok (r : CareerPlanner.BridgeRole) : Prop :=
  (∀ l, CareerPlanner.skills_built r = Some l → l ≠ [])
  ∧ (∀ m, CareerPlanner.role_timeline_months r = Some m → (0 ≤ m)%Z).

(** Membership of a given key in a list of keys. *)
Ltac in_categories :=
  unfold SkillAnalyzer.categories; repeat first [by left | right].


(** Read a line "label value" in a turn of a parsing loop; [line_lemma] states
    what [strip] and the reading of the value give on such a line. *)
Ltac read_line line_lemma H :=
  let tail := fresh "tail" in
  let Hstrip := fresh "Hstrip" in
  let Hfield := fresh "Hfield" in
  edestruct line_lemma as (tail & Hstrip & Hfield);
    [reflexivity | reflexivity | reflexivity | reflexivity | exact H |];
  unfold Learning.rec_step;
  match goal with
  | |- context [strip ?line] =>
      match type of Hstrip with
      | strip ?line' = _ => change line with line'
      end
  end;
  rewrite Hstrip;
  repeat match goal with
    | |- context [startswith ?p (s2l ?lab ++ tail)] =>
        let b := eval vm_compute in (startswith p (s2l lab ++ tail)) in
        change (startswith p (s2l lab ++ tail)) with b
    end;
  cbv iota; rewrite Hfield.

(** * Properties *)

(** ** Strings *)

Lemma startswith_spec (p s : str) :
  startswith p s = true ↔ ∃ post, s = p ++ post.
Proof.
  revert s. induction p as [|a p IH]; intros s; simpl.
  - split; [eauto | done].
  - destruct s as [|b s].
    + split; [done | intros [post Hp]; discriminate].
    + rewrite andb_true_iff, N.eqb_eq, IH. split.
      * intros [-> [post ->]]. eauto.
      * intros [post Hp]. injection Hp as -> ->. eauto.
Qed.

Lemma contains_spec (sub s : str) :
  contains sub s = true ↔ ∃ pre post, s = pre ++ sub ++ post.
Proof.
  induction s as [|c s IH]; simpl.
  - rewrite orb_false_r, startswith_spec. split.
    + intros [post ->]. by exists [], post.
    + intros [pre [post Hs]]. destruct pre; [by exists post | discriminate].
  - rewrite orb_true_iff, startswith_spec, IH. split.
    + intros [[post ->] | [pre [post ->]]].
      * by exists [], post.
      * by exists (c :: pre), post.
    + intros [pre [post Hs]]. destruct pre as [|c' pre]; simpl in Hs.
      * left. by exists post.
      * right. injection Hs as -> ->. by exists pre, post.
Qed.

Lemma contains_app (sub pre s post : str) :
  contains sub s = true → contains sub (pre ++ s ++ post) = true.
Proof.
  rewrite !contains_spec. intros [a [b ->]].
  exists (pre ++ a), (b ++ post). by rewrite <- !app_assoc.
Qed.

Lemma not_contains_app (sub pre s post : str) :
  contains sub (pre ++ s ++ post) = false → contains sub s = false.
Proof.
  intros H. destruct (contains sub s) eqn:E; [|done].
  by rewrite (contains_app _ pre _ post E) in H.
Qed.

Lemma dropwhile_suffix (p : char → bool) (s : str) :
  ∃ pre, s = pre ++ dropwhile p s.
Proof.
  induction s as [|c s [pre IH]]; simpl.
  - by exists [].
  - destruct (p c); [|by exists []].
    exists (c :: pre). simpl. by f_equal.
Qed.

(** A stripped line is a piece of the line. *)
Lemma strip_infix (s : str) : ∃ pre post, s = pre ++ strip s ++ post.
Proof.
  unfold strip, rstrip, lstrip.
  destruct (dropwhile_suffix isspace s) as [pre Hpre].
  destruct (dropwhile_suffix isspace (rev (dropwhile isspace s))) as [post Hpost].
  exists pre, (rev post).
  rewrite <- rev_app_distr, <- Hpost, rev_involutive. exact Hpre.
Qed.

Lemma split_nonempty (sep : char) (s : str) : split sep s ≠ [].
Proof.
  destruct s as [|c s]; simpl; [done|].
  destruct (c =? sep)%N; [done|]. by destruct (split sep s).
Qed.

Lemma join_cons (sep x : str) (l : list str) :
  l ≠ [] → join sep (x :: l) = x ++ sep ++ join sep l.
Proof. by destruct l. Qed.

Lemma join_split (sep : char) (s : str) : join [sep] (split sep s) = s.
Proof.
  induction s as [|c s IH]; simpl; [done|].
  pose proof (split_nonempty sep s) as Hne.
  destruct (c =? sep)%N eqn:E.
  - apply N.eqb_eq in E as ->.
    rewrite join_cons by done. simpl. by rewrite IH.
  - destruct (split sep s) as [|l ls]; [done|].
    destruct ls as [|l' ls]; simpl in *; by rewrite <- IH.
Qed.

Lemma elem_join_infix (sep l : str) (ls : list str) :
  l ∈ ls → ∃ pre post, join sep ls = pre ++ l ++ post.
Proof.
  induction ls as [|x ls IH]; [by intros ?%elem_of_nil|].
  destruct ls as [|y ls].
  - intros ->%list_elem_of_singleton. exists [], []. simpl. by rewrite app_nil_r.
  - rewrite join_cons by done. intros [->|Hl]%elem_of_cons.
    + by exists [], (sep ++ join sep (y :: ls)).
    + destruct (IH Hl) as [pre [post ->]].
      exists (x ++ sep ++ pre), post. by rewrite <- !app_assoc.
Qed.

(** A line of a text is a piece of the text. *)
Lemma split_infix (sep : char) (s l : str) :
  l ∈ split sep s → ∃ pre post, s = pre ++ l ++ post.
Proof.
  intros Hl. destruct (elem_join_infix [sep] l _ Hl) as [pre [post H]].
  rewrite join_split in H. eauto.
Qed.




Lemma startswith_contains (p s : str) :
  startswith p s = true → contains p s = true.
Proof. destruct s; simpl; intros ->; done. Qed.

(** ** Calls that raise *)


(** C1. When the call to the hosted service raises an exception [e], each of
    [predict_career_path], [evaluate_answer], [search] and
    [extract_skills_from_text] returns its fallback value, a record of the
    type of its successful results; and whatever the outcome of the call, the
    four operations return a value, so that no exception of the call reaches
    the caller. *)
Theorem external_failure_falls_back (e : exn) :
  (∀ current target skills,
     CareerPlanner.predict_career_path (Raise e) current target skills
     = Ok (CareerPlanner._calculate_fallback_path current target skills))
  ∧ InterviewCoach.evaluate_answer (Raise e)
    = Ok {| InterviewCoach.score := 5;
            InterviewCoach.feedback :=
              s2l "Error during evaluation: " ++ exn_str e ++ [newline; newline]
              ++ s2l "Please try again or check your GROQ_API_KEY configuration.";
            InterviewCoach.is_correct := s2l "error";
            InterviewCoach.better_answer := [];
            InterviewCoach.detailed_analysis :=
              {| InterviewCoach.strengths := [];
                 InterviewCoach.improvements :=
                   [s2l "Unable to evaluate - technical error occurred"] |} |}
  ∧ (∀ config,
       Search.search (Raise e) config
       = Ok {| Search.raw_results := [];
               Search.status := s2l "no_results";
               Search.count := 0 |})
  ∧ SkillAnalyzer.extract_skills_from_text (Raise e)
    = Ok SkillAnalyzer.empty_skills
  ∧ (∀ invoke current target skills,
       returns (CareerPlanner.predict_career_path invoke current target skills))
  ∧ (∀ invoke, returns (InterviewCoach.evaluate_answer invoke))
  ∧ (∀ invoke config, returns (Search.search invoke config))
  ∧ (∀ invoke, returns (SkillAnalyzer.extract_skills_from_text invoke)).
Proof.
  repeat split; try reflexivity; intros; unfold returns;
    match goal with
    | invoke : result _ |- _ => destruct invoke; simpl; eauto
    end.
Qed.

(** ** Ranges of the scores *)

Lemma feasibility_in_range (text current target : str) skills :
  (1 ≤ CareerPlanner.feasibility_score
         (CareerPlanner._parse_career_path text current target skills) ≤ 10)%Z.
Proof. simpl. lia. Qed.

Lemma resume_score_in_range (resume_text : str) :
  (0 ≤ EthicsAuditor.score (EthicsAuditor.audit_resume resume_text) ≤ 100)%Z.
Proof. simpl. lia. Qed.

Lemma heuristic_score_in_range (job_text : str) :
  (45 ≤ Personalization.score (Personalization.audit_job_heuristic job_text) ≤ 100)%Z.
Proof.
  unfold Personalization.audit_job_heuristic.
  destruct (Personalization.heuristic_state job_text). simpl. lia.
Qed.

(** C2. [_parse_career_path] keeps the feasibility score within 1..10 and
    [audit_resume] keeps its score within 0..100, as does the heuristic
    branch of [audit_job] (within 45..100).  The branch of [audit_job] that
    parses the reply of the model does not clamp: on the reply
    "SCORE: 500" it returns the score 500. *)
Theorem audit_job_reply_not_clamped :
  (∀ text current target skills,
     (1 ≤ CareerPlanner.feasibility_score
            (CareerPlanner._parse_career_path text current target skills) ≤ 10)%Z)
  ∧ (∀ resume_text,
       (0 ≤ EthicsAuditor.score (EthicsAuditor.audit_resume resume_text) ≤ 100)%Z)
  ∧ (∀ job_text,
       Personalization.audit_job false (Ok (s2l "SCORE: 500")) job_text
       = Ok (Personalization.audit_job_heuristic job_text)
       ∧ (45 ≤ Personalization.score (Personalization.audit_job_heuristic job_text)
          ≤ 100)%Z)
  ∧ (∀ job_text,
       Personalization.audit_job true (Ok (s2l "SCORE: 500")) job_text
       = Ok {| Personalization.score := 500;
               Personalization.flags := [];
               Personalization.is_biased := false |}).
Proof.
  split; [exact feasibility_in_range|].
  split; [exact resume_score_in_range|].
  split.
  - intros job_text. split; [reflexivity | apply heuristic_score_in_range].
  - intros job_text. vm_compute. reflexivity.
Qed.

(** ** The feasibility score *)



(** ** Texts without labels *)

Lemma any_in_false (labels : list string) (s : str) (label : string) :
  any_in labels s = false → label ∈ labels → contains (s2l label) s = false.
Proof.
  unfold any_in. intros H Hl.
  destruct (contains (s2l label) s) eqn:E; [|done].
  assert (existsb (λ pattern, contains (s2l pattern) s) labels = true); [|congruence].
  apply existsb_exists. exists label. split; [by apply list_elem_of_In | done].
Qed.









(** ** The audits of the ethics auditor *)

Section AuditStates.
Import EthicsAuditor.
#[local] Open Scope Z_scope.













End AuditStates.




(** ** The first score pattern *)


Lemma run_seq {A : Type} (r1 r2 : regex) (prev : option char) (s : str)
    (caps : captures) (k : option char → str → captures → option A) :
  run (Seq r1 r2) prev s caps k
  = run r1 prev s caps (λ prev' s' caps', run r2 prev' s' caps' k).
Proof. reflexivity. Qed.



Lemma search_from_unfold (r : regex) (prev : option char) (s : str) :
  search_from r prev s =
  match match_here r prev s with
  | Some (caps, _) => Some caps
  | None =>
      match s with
      | [] => None
      | c :: s' => search_from r (Some c) s'
      end
  end.
Proof. by destruct s. Qed.





(** ** The term "ninja" *)





Section Gendered.
Import EthicsAuditor.
#[local] Open Scope Z_scope.







End Gendered.






(** ** Skill gaps *)

Section SkillGaps.
Import SkillAnalyzer.

Lemma alter_twice (f g : list str → list str) (k : string)
    (m : gmap string (list str)) :
  alter f k (alter g k m) = alter (λ x, f (g x)) k m.
Proof.
  apply map_eq. intros j. rewrite !lookup_alter.
  destruct (decide (k = j)) as [->|Hne]; [|done].
  rewrite decide_True by done. by destruct (m !! j).
Qed.

Lemma job_skills_fold (held : list str) (category : string) (l : list str)
    (g m : gmap string (list str)) :
  fold_left (job_skill_step held category) l (g, m)
  = (alter (λ x, x ++ List.filter (λ s, negb (is_matched held s)) l)
       (severity category) g,
     alter (λ x, x ++ List.filter (is_matched held) l) category m).
Proof.
  revert g m. induction l as [|s l IH]; intros g m.
  - simpl. f_equal; symmetry; apply alter_id; intros; apply app_nil_r.
  - change (fold_left (job_skill_step held category) (s :: l) (g, m))
      with (fold_left (job_skill_step held category) l
              (job_skill_step held category (g, m) s)).
    assert (E : job_skill_step held category (g, m) s
                = if is_matched held s then (g, append_to category s m)
                  else (append_to (severity category) s g, m)) by reflexivity.
    rewrite E. clear E.
    simpl List.filter. destruct (is_matched held s); simpl negb; cbv iota;
      rewrite IH; f_equal.
    + unfold append_to. rewrite alter_twice. apply alter_ext.
      intros x _. by rewrite <- app_assoc.
    + unfold append_to. rewrite alter_twice. apply alter_ext.
      intros x _. by rewrite <- app_assoc.
Qed.

(** The two dictionaries that [analyze_skill_gaps] returns. *)
Lemma analyze_maps (resume job : gmap string (list str)) :
  gaps (analyze_skill_gaps resume job)
  = <["critical" := unmatched_of resume job "technical"]>
      (<["moderate" := unmatched_of resume job "domain"]>
         (<["minor" := unmatched_of resume job "soft"]> ∅))
  ∧ matched (analyze_skill_gaps resume job)
    = <["technical" := matched_of resume job "technical"]>
        (<["soft" := matched_of resume job "soft"]>
           (<["domain" := matched_of resume job "domain"]> ∅)).
Proof.
  unfold analyze_skill_gaps, categories. simpl fold_left.
  unfold category_step. rewrite !job_skills_fold.
  change (severity "technical") with "critical".
  change (severity "soft") with "minor".
  change (severity "domain") with "moderate".
  simpl gaps. simpl matched. unfold empty_gaps, empty_skills.
  split.
  - rewrite alter_insert_eq.
    rewrite (alter_insert_ne _ "minor" "critical") by done.
    rewrite (alter_insert_ne _ "minor" "moderate") by done.
    rewrite alter_insert_eq.
    rewrite (alter_insert_ne _ "moderate" "critical") by done.
    rewrite alter_insert_eq.
    reflexivity.
  - rewrite alter_insert_eq.
    rewrite (alter_insert_ne _ "soft" "technical") by done.
    rewrite alter_insert_eq.
    rewrite (alter_insert_ne _ "domain" "technical") by done.
    rewrite (alter_insert_ne _ "domain" "soft") by done.
    rewrite alter_insert_eq.
    reflexivity.
Qed.

End SkillGaps.



(** ** The match percentage *)

Section Percentage.
Import SkillAnalyzer.

Lemma total_length_three (a b c : list str) :
  total_length (<["technical" := a]> (<["soft" := b]> (<["domain" := c]> ∅)))
  = (length a + (length b + length c))%nat.
Proof.
  unfold total_length.
  rewrite map_fold_insert_L; [|intros; lia|by rewrite !lookup_insert_ne].
  rewrite map_fold_insert_L; [|intros; lia|by rewrite !lookup_insert_ne].
  rewrite map_fold_insert_L; [|intros; lia|done].
  rewrite map_fold_empty. lia.
Qed.



End Percentage.



(** ** The job search *)

Lemma collect_spec (num_jobs : Z) (results : list Search.Hit)
    (all_results : list Search.Job) (seen_urls : gset str) :
  NoDup (map Search.url all_results) →
  (∀ u, u ∈ seen_urls ↔ u ∈ map Search.url all_results) →
  (all_results = [] ∨ (Z.of_nat (length all_results) < num_jobs * 2)%Z) →
  let out := Search.collect num_jobs results all_results seen_urls in
  NoDup (map Search.url out)
  ∧ all_results `prefix_of` out
  ∧ (Z.of_nat (length out) ≤ Z.max 1 (num_jobs * 2))%Z
  ∧ (out = [] ↔ all_results = [] ∧ ∀ r, r ∈ results → passes r = false).
Proof.
  revert all_results seen_urls.
  induction results as [|r results IH]; intros all_results seen_urls Hnd Hseen Hlen.
  - simpl. split; [done|]. split; [done|]. split.
    + destruct Hlen as [->|Hlen]; simpl; lia.
    + split; [intros ->; split; [done|] | by intros [-> _]].
      intros r Hr. by apply elem_of_nil in Hr.
  - simpl Search.collect. fold (passes r).
    case_bool_decide as Hfresh.
    + destruct (passes r) eqn:Hpass.
      * (* the result is appended *)
        set (all' := all_results ++ [Search.job_of_hit r]).
        assert (Hnd' : NoDup (map Search.url all')).
        { subst all'. rewrite map_app. simpl.
          apply NoDup_app. split; [done|]. split; [|apply NoDup_singleton].
          intros u Hu ->%list_elem_of_singleton. apply Hfresh. by apply Hseen. }
        assert (Hpre : all_results `prefix_of` all') by by apply prefix_app_r.
        assert (Hne : all' ≠ []) by (subst all'; by destruct all_results).
        assert (Hlen' : length all' = S (length all_results)).
        { subst all'. rewrite length_app. simpl. lia. }
        destruct (num_jobs * 2 <=? Z.of_nat (length all'))%Z eqn:Hstop.
        -- apply Z.leb_le in Hstop.
           split; [done|]. split; [done|]. split.
           ++ rewrite Hlen'. destruct Hlen as [->|Hlen]; simpl in *; lia.
           ++ split; [done|]. intros [_ Hall].
              rewrite Hall in Hpass; [done | left].
        -- apply Z.leb_gt in Hstop.
           destruct (IH all' ({[Search.hit_url r]} ∪ seen_urls)) as (H1 & H2 & H3 & H4).
           ++ exact Hnd'.
           ++ intros u. subst all'. rewrite map_app, elem_of_app, elem_of_union.
              simpl. rewrite <- Hseen, elem_of_singleton, list_elem_of_singleton.
              tauto.
           ++ by right.
           ++ split; [exact H1|]. split; [by etrans|]. split; [exact H3|].
              split.
              ** intros Hout. apply H4 in Hout as [Hout _]. done.
              ** intros [_ Hall]. rewrite Hall in Hpass; [done | left].
      * destruct (IH all_results seen_urls Hnd Hseen Hlen) as (H1 & H2 & H3 & H4).
        split; [exact H1|]. split; [exact H2|]. split; [exact H3|].
        rewrite H4. split.
        -- intros [-> Hall]. split; [done|].
           intros r' [->|Hr']%elem_of_cons; [exact Hpass | by apply Hall].
        -- intros [-> Hall]. split; [done|]. intros r' Hr'. apply Hall. by right.
    + (* the address was seen: a result with it was appended, so the list
         is not empty *)
      destruct (IH all_results seen_urls Hnd Hseen Hlen) as (H1 & H2 & H3 & H4).
      split; [exact H1|]. split; [exact H2|]. split; [exact H3|].
      assert (Hin : Search.hit_url r ∈ seen_urls).
      { destruct (decide (Search.hit_url r ∈ seen_urls)); [done|]. by exfalso. }
      apply Hseen in Hin.
      assert (Hne : all_results ≠ []).
      { intros ->. by apply elem_of_nil in Hin. }
      split.
      * intros Hout. apply H4 in Hout as [Hout _]. done.
      * by intros [Hall _].
Qed.

Lemma status_values : s2l "success" ≠ s2l "no_results".
Proof. vm_compute. discriminate. Qed.

(** C10, as the code has it.  Whatever the search provider returns or
    raises, [search] returns a result whose [raw_results] have pairwise
    distinct addresses and whose [status] is "success" exactly when some
    provider result passed the filter of job postings, and "no_results"
    otherwise.  The loop tests the bound after appending, so the list has at
    most [2 * num_jobs] entries when [num_jobs] is at least 1, and at most
    one entry otherwise. *)
Theorem search_results_distinct_and_bounded
    (invoke : result (list Search.Hit)) (config : Search.JobSearchConfig) :
  ∃ r,
    Search.search invoke config = Ok r
    ∧ NoDup (map Search.url (Search.raw_results r))
    ∧ (Z.of_nat (length (Search.raw_results r))
       ≤ Z.max 1 (2 * Search.num_jobs config))%Z
    ∧ ((1 ≤ Search.num_jobs config)%Z →
       (Z.of_nat (length (Search.raw_results r)) ≤ 2 * Search.num_jobs config)%Z)
    ∧ (Search.status r = s2l "success"
       ↔ ∃ h, h ∈ provided invoke ∧ passes h = true)
    ∧ (Search.status r = s2l "no_results"
       ↔ ¬ ∃ h, h ∈ provided invoke ∧ passes h = true)
    ∧ Search.count r = length (Search.raw_results r).
Proof.
  set (out := Search.collect (Search.num_jobs config) (provided invoke) [] ∅).
  assert (Hsearch : Search.search invoke config
                    = Ok {| Search.raw_results := out;
                            Search.status := if decide (out = []) then s2l "no_results"
                                             else s2l "success";
                            Search.count := length out |}).
  { subst out. by destruct invoke. }
  destruct (collect_spec (Search.num_jobs config) (provided invoke) [] ∅)
    as (Hnd & _ & Hlen & Hempty).
  { apply NoDup_nil_2. }
  { intros u. simpl. set_solver. }
  { by left. }
  fold out in Hnd, Hlen, Hempty.
  assert (Hsome : out ≠ [] ↔ ∃ h, h ∈ provided invoke ∧ passes h = true).
  { rewrite Hempty. split.
    - intros Hne. destruct (existsb passes (provided invoke)) eqn:E.
      + apply existsb_exists in E as [h [Hh Hp]]. exists h.
        split; [by apply list_elem_of_In | done].
      + exfalso. apply Hne. split; [done|]. intros h Hh.
        destruct (passes h) eqn:Hp; [|done].
        assert (existsb passes (provided invoke) = true); [|congruence].
        apply existsb_exists. exists h. split; [by apply list_elem_of_In | done].
    - intros [h [Hh Hp]] [_ Hall]. rewrite (Hall h Hh) in Hp. done. }
  eexists. split; [exact Hsearch|]. simpl.
  split; [exact Hnd|]. split; [lia|]. split; [lia|].
  split; [|split; [|reflexivity]].
  - rewrite <- Hsome. destruct (decide (out = [])) as [He|He].
    + split; [intros H; symmetry in H; by apply status_values in H | done].
    + done.
  - rewrite <- Hsome. destruct (decide (out = [])) as [He|He].
    + split; [intros _ H; by apply H | done].
    + split; [intros H; by apply status_values in H | intros H; by destruct H].
Qed.


Lemma search_results_distinct_and_bounded_witness :
  let config := {| Search.job_title := s2l "engineer"; Search.location := None;
                   Search.work_style := None; Search.num_jobs := 5 |} in
  (1 ≤ Search.num_jobs config)%Z
  ∧ ∃ r, Search.search (Ok [posting_hit; posting_hit]) config = Ok r
         ∧ (Z.of_nat (length (Search.raw_results r)) ≤ 2 * Search.num_jobs config)%Z
         ∧ NoDup (map Search.url (Search.raw_results r)).
Proof.
  intros config.
  assert (H1 : (1 ≤ Search.num_jobs config)%Z) by (simpl; lia).
  split; [exact H1|].
  destruct (search_results_distinct_and_bounded (Ok [posting_hit; posting_hit]) config)
    as (r & Hr & Hnd & _ & Hlen & _).
  exists r. split; [exact Hr|]. split; [exact (Hlen H1) | exact Hnd].
Defined.

(** C10 as stated fails: with [num_jobs = 0] a posting is appended before
    the bound is tested, and the list has one entry. *)
Lemma search_bound_counterexample :
  let config := {| Search.job_title := s2l "engineer"; Search.location := None;
                   Search.work_style := None; Search.num_jobs := 0 |} in
  ∃ r, Search.search (Ok [posting_hit]) config = Ok r
       ∧ length (Search.raw_results r) = 1%nat
       ∧ ¬ (Z.of_nat (length (Search.raw_results r)) ≤ 2 * Search.num_jobs config)%Z.
Proof.
  intros config. eexists. split; [reflexivity|].
  split; [vm_compute; reflexivity|].
  vm_compute. intros H. by apply H.
Qed.

(** * Further properties of the agents *)

(** ** Lists and flags of the results *)

(** X1. Whatever the text, the career path that [_parse_career_path] returns
    has between one and six milestones and between one and five
    challenges. *)
Theorem career_path_lists_bounded (text current target : str)
    (skills : gmap string (list str)) :
  let r := CareerPlanner._parse_career_path text current target skills in
  (1 ≤ length (CareerPlanner.milestones r) ≤ 6)%nat
  ∧ (1 ≤ length (CareerPlanner.challenges r) ≤ 5)%nat.
Proof.
  cbn [CareerPlanner._parse_career_path CareerPlanner.milestones
       CareerPlanner.challenges]. split.
  - rewrite length_take.
    destruct (CareerPlanner.parse_milestones text); cbn [length]; lia.
  - unfold CareerPlanner._extract_challenges.
    destruct (fst _) as [|c cs]; [cbn [length]; lia|].
    rewrite length_take. cbn [length]. lia.
Qed.

(** X2. [evaluate_answer] returns, for every outcome of the call to the
    model, an evaluation whose score lies between 1 and 10 and whose lists of
    strengths and of improvements have at most three entries. *)
Theorem evaluation_is_bounded (invoke : result str) :
  ∃ e, InterviewCoach.evaluate_answer invoke = Ok e
       ∧ (1 ≤ InterviewCoach.score e ≤ 10)%Z
       ∧ (length (InterviewCoach.strengths (InterviewCoach.detailed_analysis e)) ≤ 3)%nat
       ∧ (length (InterviewCoach.improvements (InterviewCoach.detailed_analysis e)) ≤ 3)%nat.
Proof.
  destruct invoke as [feedback_text|e]; simpl.
  - eexists. split; [reflexivity|]. simpl. split; [lia|].
    unfold InterviewCoach._parse_feedback.
    destruct (fold_left _ _ _) as [[strengths improvements] sec]. simpl.
    rewrite !length_take. lia.
  - eexists. split; [reflexivity|]. simpl. lia.
Qed.

(** X3. The flags of the two audits of the ethics auditor agree with the
    scores they return: [audit_resume] sets [is_biased] exactly when the
    returned score is below 70, and [audit_job_description] sets
    [is_discriminatory] exactly when the returned score is below 65, although
    the flags are computed before the scores are clamped. *)
Theorem ethics_flags_agree_with_scores (text : str) :
  (EthicsAuditor.is_biased (EthicsAuditor.audit_resume text) = true
   ↔ (EthicsAuditor.score (EthicsAuditor.audit_resume text) < 70)%Z)
  ∧ (EthicsAuditor.is_discriminatory (EthicsAuditor.audit_job_description text) = true
     ↔ (EthicsAuditor.job_score (EthicsAuditor.audit_job_description text) < 65)%Z).
Proof.
  unfold EthicsAuditor.audit_resume, EthicsAuditor.audit_job_description. simpl.
  rewrite !Z.ltb_lt. lia.
Qed.

Lemma parse_audit_flag (resp : str) :
  Personalization.is_biased (Personalization.parse_audit resp) = true
  ↔ (Personalization.score (Personalization.parse_audit resp) < 70)%Z.
Proof. unfold Personalization.parse_audit. simpl. apply Z.ltb_lt. Qed.

Lemma heuristic_flag (job_text : str) :
  Personalization.is_biased (Personalization.audit_job_heuristic job_text) = true
  ↔ (Personalization.score (Personalization.audit_job_heuristic job_text) < 70)%Z.
Proof.
  unfold Personalization.audit_job_heuristic.
  destruct (Personalization.heuristic_state job_text) as [sc fl]. simpl.
  rewrite Z.ltb_lt. lia.
Qed.

(** What [audit_job] returns in each case. *)
Lemma audit_job_cases (audit_enabled : bool) (invoke : result str) (job_text : str) :
  ∃ r, Personalization.audit_job audit_enabled invoke job_text = Ok r
       ∧ (r = Personalization.audit_job_heuristic job_text ∧ audit_enabled = false
          ∨ (∃ resp, r = Personalization.parse_audit resp ∧ invoke = Ok resp
                     ∧ resp ≠ [] ∧ audit_enabled = true)
          ∨ (Personalization.score r = 70%Z ∧ Personalization.is_biased r = false
             ∧ (∃ reason, Personalization.flags r
                          = [s2l "Audit Skipped (" ++ reason ++ s2l ")"])
             ∧ audit_enabled = true
             ∧ (invoke = Ok [] ∨ ∃ e, invoke = Raise e))).
Proof.
  destruct audit_enabled; simpl.
  - destruct invoke as [[|c resp]|e]; simpl.
    + eexists. split; [reflexivity|]. right. right.
      split; [done|]. split; [done|].
      split; [by exists (s2l "Service Unavailable") | by split; [|left]].
    + eexists. split; [reflexivity|]. right. left. by exists (c :: resp).
    + eexists. split; [reflexivity|]. right. right.
      split; [done|]. split; [done|].
      split; [by eexists | split; [done|right; by exists e]].
  - eexists. split; [reflexivity|]. by left.
Qed.

(** X4. [audit_job] returns a result for every outcome of the call to the
    model, and [is_biased] is set exactly when the returned score is below
    70.  When the call raises or the reply is empty, the score is 70, the
    job is not marked as biased, and the only flag reads
    "Audit Skipped (...)". *)
Theorem audit_job_always_answers (audit_enabled : bool) (invoke : result str)
    (job_text : str) :
  ∃ r, Personalization.audit_job audit_enabled invoke job_text = Ok r
       ∧ (Personalization.is_biased r = true ↔ (Personalization.score r < 70)%Z)
       ∧ (audit_enabled = true → (invoke = Ok [] ∨ ∃ e, invoke = Raise e) →
          Personalization.score r = 70%Z
          ∧ Personalization.is_biased r = false
          ∧ ∃ reason, Personalization.flags r
                      = [s2l "Audit Skipped (" ++ reason ++ s2l ")"]).
Proof.
  destruct (audit_job_cases audit_enabled invoke job_text) as (r & Hr & Hcases).
  exists r. split; [exact Hr|].
  destruct Hcases as [[-> Hoff] | [(resp & -> & Hinv & Hne & Hon) | (Hs & Hb & Hf & Hon & Hinv)]].
  - split; [apply heuristic_flag|]. congruence.
  - split; [apply parse_audit_flag|].
    intros _ [Hemp | [e He]]; congruence.
  - split; [rewrite Hs, Hb; split; [done | lia]|]. by intros _ _.
Qed.

Lemma audit_job_always_answers_witness :
  ∃ r, Personalization.audit_job true (Raise (Exception (s2l "quota exceeded")))
         (s2l "Engineer wanted") = Ok r
       ∧ Personalization.score r = 70%Z
       ∧ Personalization.is_biased r = false.
Proof.
  destruct (audit_job_always_answers true (Raise (Exception (s2l "quota exceeded")))
              (s2l "Engineer wanted")) as (r & Hr & _ & H).
  exists r. split; [exact Hr|].
  destruct (H eq_refl (or_intror (ex_intro _ _ eq_refl))) as (Hs & Hb & _).
  split; [exact Hs | exact Hb].
Defined.

(** ** The memory agent *)

(** X5. [get_context] returns for every outcome of the search of the memory
    store; the context is not empty exactly when the agent is enabled and the
    search returned at least one result, and it then starts with "- "
    followed by the first result. *)
Theorem context_nonempty_iff_results (enabled : bool) (invoke : result (list str)) :
  ∃ context, Memory.get_context enabled invoke = Ok context
    ∧ (context ≠ [] ↔ enabled = true ∧ ∃ r results, invoke = Ok (r :: results))
    ∧ (∀ r results, enabled = true → invoke = Ok (r :: results) →
                    ∃ rest, context = s2l "- " ++ r ++ rest).
Proof.
  destruct enabled; simpl.
  - destruct invoke as [[|r results]|e]; simpl.
    + exists []. split; [done|]. split.
      * split; [done | intros (_ & r & results & H); discriminate].
      * intros r results _ H. discriminate.
    + eexists. split; [reflexivity|]. split.
      * split; [intros _; split; [done | by exists r, results]|].
        intros _. destruct results; discriminate.
      * intros r' results' _ H. injection H as <- <-.
        destruct results as [|r2 results].
        -- exists []. cbn [map join]. by rewrite app_nil_r.
        -- exists ([newline] ++ join [newline]
                                 (map (λ r, s2l "- " ++ r) (r2 :: results))).
           cbn [map]. rewrite join_cons by done. by rewrite <- app_assoc.
    + exists []. split; [done|]. split.
      * split; [done | intros (_ & r & results & H); discriminate].
      * intros r results _ H. discriminate.
  - exists []. split; [done|]. split.
    + split; [done | intros [H _]; discriminate].
    + intros r results H. discriminate.
Qed.

Lemma context_nonempty_iff_results_witness :
  ∃ context, Memory.get_context true (Ok [s2l "data engineer"; s2l "remote"]) = Ok context
             ∧ ∃ rest, context = s2l "- " ++ s2l "data engineer" ++ rest.
Proof.
  destruct (context_nonempty_iff_results true (Ok [s2l "data engineer"; s2l "remote"]))
    as (context & Hc & _ & H).
  exists context. split; [exact Hc|].
  exact (H (s2l "data engineer") [s2l "remote"] eq_refl eq_refl).
Defined.

(** ** The learning roadmap of the career planner *)

Lemma for_each_invariant {S B : Type} (f : S → B → result S) (P : S → Prop)
    (l : list B) (st : S) :
  (∀ st x, x ∈ l → P st → ∃ st', f st x = Ok st' ∧ P st') →
  P st → ∃ st', Roadmap.for_each f l st = Ok st' ∧ P st'.
Proof.
  revert st. induction l as [|x l IH]; intros st Hf HP; simpl.
  - by exists st.
  - destruct (Hf st x) as (st1 & -> & HP1); [by left | done |]. simpl.
    apply IH; [|done]. intros st2 y Hy. apply Hf. by right.
Qed.

Lemma contains_elem (sub s : str) (c : char) :
  contains sub s = true → c ∈ sub → c ∈ s.
Proof.
  intros [pre [post ->]]%contains_spec Hc.
  apply elem_of_app. right. apply elem_of_app. by left.
Qed.

(** Only a colon is a colon in upper case. *)
Lemma upper_char_colon (c : char) : 58%N ∈ upper_char c → c = 58%N.
Proof.
  unfold upper_char.
  destruct (in_range 97 122 c || in_range 224 254 c && negb (c =? 247)%N) eqn:E.
  - intros H%list_elem_of_singleton.
    assert (c = 90%N) as -> by lia. vm_compute in E. discriminate.
  - destruct (c =? 181)%N; [intros H%list_elem_of_singleton; discriminate|].
    destruct (c =? 223)%N.
    { intros [H|[H|H]%elem_of_cons]%elem_of_cons; try discriminate.
      by apply elem_of_nil in H. }
    destruct (c =? 255)%N; [intros H%list_elem_of_singleton; discriminate|].
    by intros H%list_elem_of_singleton.
Qed.

Lemma upper_colon (s : str) : 58%N ∈ upper s → 58%N ∈ s.
Proof.
  unfold upper. induction s as [|c s IH]; simpl; [done|].
  intros [H|H]%elem_of_app.
  - apply upper_char_colon in H as ->. by left.
  - right. by apply IH.
Qed.

Lemma after_first_some (sep : char) (s : str) :
  sep ∈ s → ∃ rest, Roadmap.after_first sep s = Some rest.
Proof.
  induction s as [|c s IH]; [by intros ?%elem_of_nil|]. simpl.
  destruct (c =? sep)%N eqn:E; [by eexists|].
  intros [->|H]%elem_of_cons; [by rewrite N.eqb_refl in E | by apply IH].
Qed.

(** The line has a colon when, in upper case, it contains the label. *)
Lemma label_gives_second_part (label line : str) :
  58%N ∈ label → contains label (upper line) = true →
  ∃ rest, Roadmap.split1_second 58%N line = Ok rest.
Proof.
  intros Hl Hc. unfold Roadmap.split1_second.
  destruct (after_first_some 58%N line) as [rest ->]; [|by eexists].
  apply upper_colon. by apply (contains_elem label).
Qed.

(** No line makes the loop of [_parse_roadmap] raise. *)
Lemma roadmap_step_returns (st : Roadmap.parse_state) (raw : str) :
  ∃ st', Roadmap.roadmap_step st raw = Ok st'.
Proof.
  unfold Roadmap.roadmap_step. set (line := strip raw).
  destruct (negb (nonempty line)); [by eexists|].
  destruct (contains (s2l "SKILL GAP") (upper line)); [by eexists|].
  destruct (contains (s2l "TOTAL DURATION") (upper line)); [by eexists|].
  destruct (startswith (s2l "PHASE") (upper line)).
  { destruct (contains (s2l ":") line) eqn:E; [|by eexists].
    unfold Roadmap.split1_second.
    destruct (after_first_some 58%N line) as [rest ->]; [|by eexists].
    apply (contains_elem (s2l ":")); [done | by left]. }
  destruct (Roadmap.is_some (Roadmap.current_phase st)
            && contains (s2l "DURATION:") (upper line)) eqn:E1.
  { apply andb_true_iff in E1 as [_ E1].
    destruct (label_gives_second_part (s2l "DURATION:") line) as [rest ->];
      [vm_compute; set_solver | done | by eexists]. }
  destruct (Roadmap.is_some (Roadmap.current_phase st)
            && contains (s2l "FOCUS:") (upper line)) eqn:E2.
  { apply andb_true_iff in E2 as [_ E2].
    destruct (label_gives_second_part (s2l "FOCUS:") line) as [rest ->];
      [vm_compute; set_solver | done | by eexists]. }
  destruct (_ && contains (s2l "RESOURCE") _); [by eexists|].
  destruct (_ && contains (s2l "PROJECT") _); [by eexists|].
  destruct (startswith _ _ || startswith _ _); [|by eexists].
  destruct (negb _); by eexists.
Qed.

(** X6. [_parse_roadmap] returns a roadmap for every text: the [IndexError]
    of its [line.split(':', 1)[1]] cannot occur.  That roadmap, like the one
    [generate_skill_roadmap] returns for every outcome of the call to the
    model, has at least one skill gap and at least one learning phase. *)
Theorem roadmap_is_never_empty :
  (∀ text, ∃ r, Roadmap._parse_roadmap text = Ok r
                ∧ Roadmap.skill_gaps r ≠ [] ∧ Roadmap.learning_phases r ≠ [])
  ∧ (∀ invoke, ∃ r, Roadmap.generate_skill_roadmap invoke = Ok r
                    ∧ Roadmap.skill_gaps r ≠ [] ∧ Roadmap.learning_phases r ≠ []).
Proof.
  assert (Hparse : ∀ text, ∃ r, Roadmap._parse_roadmap text = Ok r
                     ∧ Roadmap.skill_gaps r ≠ [] ∧ Roadmap.learning_phases r ≠ []).
  { intros text. unfold Roadmap._parse_roadmap.
    destruct (for_each_invariant Roadmap.roadmap_step (λ _, True)
                (split newline text)
                {| Roadmap.roadmap :=
                     {| Roadmap.skill_gaps := []; Roadmap.learning_phases := [];
                        Roadmap.total_duration := s2l "6-9 months" |};
                   Roadmap.current_section := None;
                   Roadmap.current_phase := None |}) as (st & -> & _); [|done|].
    { intros st0 x _ _. destruct (roadmap_step_returns st0 x) as [st' ->]. eauto. }
    simpl.
    destruct (Roadmap.skill_gaps _) as [|g gs];
      destruct (Roadmap.learning_phases _) as [|p ps];
      eexists; (split; [reflexivity|]); by split. }
  split; [exact Hparse|].
  intros [content|e].
  - destruct (Hparse content) as (r & Hr & H). exists r. split; [|done].
    change (Roadmap.generate_skill_roadmap (Ok content))
      with (try_except (Roadmap._parse_roadmap content)
              (λ _, Ok Roadmap._get_default_roadmap)).
    by rewrite Hr.
  - eexists. split; [reflexivity|]. by split.
Qed.

Lemma upper_app (a b : str) : upper (a ++ b) = upper a ++ upper b.
Proof. unfold upper. induction a as [|c a IH]; simpl; [done|]. by rewrite IH, app_assoc. Qed.

Lemma contains_upper_line (sub text raw : str) :
  raw ∈ split newline text →
  contains sub (upper (strip raw)) = true → contains sub (upper text) = true.
Proof.
  intros Hraw Hsub.
  destruct (split_infix _ _ _ Hraw) as [pre [post ->]].
  destruct (strip_infix raw) as [pre' [post' Hr]].
  rewrite !upper_app. apply contains_app.
  rewrite Hr, !upper_app. by apply contains_app.
Qed.

(** X7. On a text that, in upper case, contains neither "SKILL GAP" nor
    "PHASE", [_parse_roadmap] returns the default roadmap, whatever else the
    text holds (a line with a total duration included). *)
Theorem unstructured_text_gives_default_roadmap (text : str) :
  contains (s2l "SKILL GAP") (upper text) = false →
  contains (s2l "PHASE") (upper text) = false →
  Roadmap._parse_roadmap text = Ok Roadmap._get_default_roadmap.
Proof.
  intros Hgap Hphase. unfold Roadmap._parse_roadmap.
  set (P := λ st : Roadmap.parse_state,
         Roadmap.skill_gaps (Roadmap.roadmap st) = []
         ∧ Roadmap.learning_phases (Roadmap.roadmap st) = []
         ∧ Roadmap.current_section st = None
         ∧ Roadmap.current_phase st = None).
  destruct (for_each_invariant Roadmap.roadmap_step P (split newline text)
              {| Roadmap.roadmap :=
                   {| Roadmap.skill_gaps := []; Roadmap.learning_phases := [];
                      Roadmap.total_duration := s2l "6-9 months" |};
                 Roadmap.current_section := None;
                 Roadmap.current_phase := None |})
    as (st & -> & (Hg & Hp & _ & Hcur)); [|done|].
  - intros st raw Hraw (Hg & Hp & Hsec & Hcur).
    unfold Roadmap.roadmap_step. set (line := strip raw).
    destruct (negb (nonempty line)); [by exists st|].
    destruct (contains (s2l "SKILL GAP") (upper line)) eqn:E1.
    { apply (contains_upper_line _ text raw Hraw) in E1. congruence. }
    destruct (contains (s2l "TOTAL DURATION") (upper line)).
    { destruct (Roadmap.search_text Roadmap.re_duration line);
        (eexists; split; [reflexivity|]); unfold P; simpl; done. }
    destruct (startswith (s2l "PHASE") (upper line)) eqn:E2.
    { apply startswith_contains, (contains_upper_line _ text raw Hraw) in E2.
      congruence. }
    rewrite Hcur. cbn [Roadmap.is_some andb].
    destruct (startswith (s2l "-") line || startswith [bullet] line);
      [|by exists st].
    destruct (negb (nonempty (strip (lstrip_chars (s2l "-" ++ [bullet]) line))));
      [by exists st|].
    exists st. split; [|done]. unfold Roadmap.add_item. by rewrite Hsec.
  - simpl. rewrite Hcur. simpl. by rewrite Hg, Hp.
Qed.

Lemma unstructured_text_gives_default_roadmap_witness :
  let text := s2l "Total duration: 5 months" ++ [newline] ++ s2l "- learn Python" in
  contains (s2l "SKILL GAP") (upper text) = false
  ∧ contains (s2l "PHASE") (upper text) = false
  ∧ Roadmap._parse_roadmap text = Ok Roadmap._get_default_roadmap.
Proof.
  intros text.
  assert (H1 : contains (s2l "SKILL GAP") (upper text) = false)
    by (vm_compute; reflexivity).
  assert (H2 : contains (s2l "PHASE") (upper text) = false)
    by (vm_compute; reflexivity).
  split; [exact H1|]. split; [exact H2|].
  exact (unstructured_text_gives_default_roadmap text H1 H2).
Defined.

(** ** The interview questions *)

Lemma fallbacks_length (question_type : str) :
  length (Questions.fallbacks question_type) = 10%nat.
Proof. unfold Questions.fallbacks. repeat case_match; reflexivity. Qed.

Lemma fallbacks_long (question_type : str) (q : str) :
  q ∈ Questions.fallbacks question_type → (10 < length q)%nat.
Proof.
  assert (Hall : ∀ l, forallb (λ q, (10 <? length q)%nat) l = true →
                      q ∈ l → (10 < length q)%nat).
  { intros l Hl Hq. apply Nat.ltb_lt.
    by apply (proj1 (forallb_forall _ l) Hl), list_elem_of_In. }
  unfold Questions.fallbacks. repeat case_match; apply Hall; vm_compute; reflexivity.
Qed.

Lemma slice_to_subseteq {A : Type} (l : list A) (n : Z) : Questions.slice_to l n ⊆ l.
Proof. unfold Questions.slice_to. case_match; apply subseteq_take. Qed.

Lemma slice_to_length {A : Type} (l : list A) (n : Z) :
  (0 ≤ n ≤ Z.of_nat (length l))%Z → length (Questions.slice_to l n) = Z.to_nat n.
Proof.
  intros Hn. unfold Questions.slice_to.
  destruct (0 <=? n)%Z eqn:E; [|apply Z.leb_gt in E; lia].
  rewrite length_take. lia.
Qed.

Lemma clean_questions_long (questions : list str) (q : str) :
  q ∈ Questions.clean_questions questions → (10 < length q)%nat.
Proof.
  unfold Questions.clean_questions.
  intros [_ H]%list_elem_of_In%filter_In.
  apply andb_true_iff in H as [_ H]. by apply Nat.ltb_lt.
Qed.

(** What [generate_questions] returns: the first [count] cleaned lines of
    the reply when there are enough of them, or else the first [count] of the
    shuffled fallback questions. *)
Lemma generate_questions_cases (shuffle : list str → list str)
    (invoke : result str) (question_type : str) (count : Z) :
  (∃ content,
     invoke = Ok content
     ∧ (count ≤ Z.of_nat (length (Questions.clean_questions
                                    (Questions.numbered_lines (strip content)))))%Z
     ∧ Questions.generate_questions shuffle invoke question_type count
       = Ok (Questions.slice_to
               (Questions.clean_questions (Questions.numbered_lines (strip content)))
               count))
  ∨ Questions.generate_questions shuffle invoke question_type count
    = Ok (Questions.slice_to (shuffle (Questions.fallbacks question_type)) count).
Proof.
  destruct invoke as [content|e]; [|by right].
  unfold Questions.generate_questions. simpl.
  destruct (count <=? _)%Z eqn:E; [|by right].
  left. exists content. apply Z.leb_le in E. by repeat split.
Qed.

(** X8. For a count between 0 and 10, [generate_questions] returns exactly
    [count] questions, whatever the model replies or raises and however the
    fallback questions are shuffled. *)
Theorem exactly_count_questions (shuffle : list str → list str)
    (invoke : result str) (question_type : str) (count : Z) :
  (∀ l, shuffle l ≡ₚ l) →
  (0 ≤ count ≤ 10)%Z →
  ∃ questions,
    Questions.generate_questions shuffle invoke question_type count = Ok questions
    ∧ length questions = Z.to_nat count.
Proof.
  intros Hperm Hcount.
  destruct (generate_questions_cases shuffle invoke question_type count)
    as [(content & _ & Hlen & ->) | ->]; eexists; (split; [reflexivity|]).
  - apply slice_to_length. lia.
  - apply slice_to_length.
    rewrite (Permutation_length (Hperm _)), fallbacks_length. lia.
Qed.

Lemma exactly_count_questions_witness :
  ∃ questions,
    Questions.generate_questions (λ l, l)
      (Ok (s2l "1. Why do you want to work here?")) (s2l "technical") 3
    = Ok questions
    ∧ length questions = 3%nat.
Proof.
  apply (exactly_count_questions (λ l, l)
           (Ok (s2l "1. Why do you want to work here?")) (s2l "technical") 3).
  - intros l. reflexivity.
  - lia.
Defined.

(** X9. Every question that [generate_questions] returns has more than ten
    characters, in every case. *)
Theorem questions_are_longer_than_ten (shuffle : list str → list str)
    (invoke : result str) (question_type : str) (count : Z) :
  (∀ l, shuffle l ≡ₚ l) →
  ∃ questions,
    Questions.generate_questions shuffle invoke question_type count = Ok questions
    ∧ ∀ q, q ∈ questions → (10 < length q)%nat.
Proof.
  intros Hperm.
  destruct (generate_questions_cases shuffle invoke question_type count)
    as [(content & _ & _ & ->) | ->]; eexists; (split; [reflexivity|]);
    intros q Hq%slice_to_subseteq.
  - by apply clean_questions_long in Hq.
  - rewrite (Hperm _) in Hq. by apply fallbacks_long in Hq.
Qed.

Lemma questions_are_longer_than_ten_witness :
  ∃ questions,
    Questions.generate_questions (λ l, l) (Raise (Exception (s2l "timeout")))
      (s2l "situational") 4 = Ok questions
    ∧ ∀ q, q ∈ questions → (10 < length q)%nat.
Proof.
  apply (questions_are_longer_than_ten (λ l, l) (Raise (Exception (s2l "timeout")))
           (s2l "situational") 4).
  intros l. reflexivity.
Defined.

(** ** Learning resources *)

(** X10. Without gaps [recommend_learning_resources] returns the empty list
    and calls no model.  With gaps, when the call raises, it returns one
    generic recommendation for each of the first five gaps, in their order:
    for the gap itself, with priority "High" for the first three and "Medium"
    for the others. *)
Theorem generic_recommendations (gaps : list str) (e : exn) :
  (∀ invoke, Learning.recommend_learning_resources invoke [] = Ok [])
  ∧ ∃ recs,
      Learning.recommend_learning_resources (Raise e) gaps = Ok recs
      ∧ length recs = Nat.min 5 (length gaps)
      ∧ map Learning.skill recs = map Some (take 5 gaps)
      ∧ ∀ i r, recs !! i = Some r →
               Learning.priority r
               = Some (if (i <? 3)%nat then s2l "High" else s2l "Medium").
Proof.
  split; [done|].
  exists (imap Learning.generic_rec (take 5 gaps)). split; [by destruct gaps|].
  split; [by rewrite length_imap, length_take|]. split.
  - apply list_eq. intros i.
    rewrite !list_lookup_fmap, list_lookup_imap.
    by destruct (take 5 gaps !! i).
  - intros i r. rewrite list_lookup_imap.
    destruct (take 5 gaps !! i); [|done]. simpl. by intros [= <-].
Qed.

Lemma elem_take_or_drop {A : Type} (n : nat) (l : list A) (x : A) :
  x ∈ l → x ∈ take n l ∨ x ∈ drop n l.
Proof. intros H. rewrite <- (take_drop n l) in H. by apply elem_of_app in H. Qed.

Lemma elem_drop_length {A : Type} (n : nat) (l : list A) (x : A) :
  x ∈ drop n l → (n < length l)%nat.
Proof.
  intros H. destruct (decide (n < length l)%nat) as [|Hge]; [done|].
  rewrite drop_ge in H by lia. by apply elem_of_nil in H.
Qed.

Lemma elem_take_more {A : Type} (n m : nat) (l : list A) (x : A) :
  (n ≤ m)%nat → x ∈ take n l → x ∈ take m l.
Proof.
  intros Hnm (i & Hi & Hlt)%elem_of_take. apply elem_of_take. exists i.
  split; [done | lia].
Qed.

(** X11. [generate_learning_roadmap] schedules, in one of its four quarters,
    every recommendation whose priority is "High", "Medium" or "Low", and
    nothing else: a recommendation with another priority, or with none, is
    left out of the roadmap. *)
Theorem roadmap_schedules_prioritised (recommendations : list Learning.Recommendation)
    (r : Learning.Recommendation) :
  r ∈ scheduled (Learning.generate_learning_roadmap recommendations)
  ↔ r ∈ recommendations ∧ prioritised r = true.
Proof.
  unfold scheduled, Learning.generate_learning_roadmap, prioritised.
  cbn [Learning.months_1_3 Learning.months_4_6 Learning.months_7_9
       Learning.months_10_12].
  set (high := List.filter (Learning.has_priority "High") recommendations).
  set (medium := List.filter (Learning.has_priority "Medium") recommendations).
  set (low := List.filter (Learning.has_priority "Low") recommendations).
  assert (Hhigh : ∀ x, x ∈ high ↔ x ∈ recommendations
                                   ∧ Learning.has_priority "High" x = true).
  { intros x. subst high. by rewrite !list_elem_of_In, filter_In. }
  assert (Hmedium : ∀ x, x ∈ medium ↔ x ∈ recommendations
                                       ∧ Learning.has_priority "Medium" x = true).
  { intros x. subst medium. by rewrite !list_elem_of_In, filter_In. }
  assert (Hlow : ∀ x, x ∈ low ↔ x ∈ recommendations
                                 ∧ Learning.has_priority "Low" x = true).
  { intros x. subst low. by rewrite !list_elem_of_In, filter_In. }
  assert (Hsub : ∀ n (l : list Learning.Recommendation),
             (r ∈ take n l → r ∈ l) ∧ (r ∈ drop n l → r ∈ l)).
  { intros n l. split; [apply subseteq_take | apply subseteq_drop]. }
  rewrite !orb_true_iff. split.
  - (* what is scheduled has a priority *)
    intros H.
    assert (Hin : r ∈ high ∨ r ∈ medium ∨ r ∈ low).
    { repeat (apply elem_of_app in H as [H|H]).
      - destruct high; [by apply elem_of_nil in H|]. left. by apply (Hsub 2) in H.
      - destruct (2 <? length high)%nat.
        + apply elem_of_app in H as [H|H]; [left | right; left]; by apply (Hsub 2) in H.
        + right. left. by apply (Hsub 3) in H.
      - destruct (2 <? length medium)%nat.
        + apply elem_of_app in H as [H|H]; [right; left | right; right];
            by apply (Hsub 2) in H.
        + right. right. by apply (Hsub 3) in H.
      - destruct (2 <? length low)%nat; [|by apply elem_of_nil in H].
        right. right. by apply (Hsub 2) in H. }
    destruct Hin as [Hin|[Hin|Hin]].
    + apply Hhigh in Hin as [? ?]. tauto.
    + apply Hmedium in Hin as [? ?]. tauto.
    + apply Hlow in Hin as [? ?]. tauto.
  - (* what has a priority is scheduled *)
    intros [Hr [[Hp|Hp]|Hp]].
    + assert (Hin : r ∈ high) by by apply Hhigh.
      destruct (elem_take_or_drop 2 high r Hin) as [Ht|Hd].
      * apply elem_of_app. left. destruct high; [by apply elem_of_nil in Hin | done].
      * apply elem_of_app. right. apply elem_of_app. left.
        apply elem_drop_length in Hd as Hlen. apply Nat.ltb_lt in Hlen.
        rewrite Hlen. apply elem_of_app. by left.
    + assert (Hin : r ∈ medium) by by apply Hmedium.
      destruct (elem_take_or_drop 2 medium r Hin) as [Ht|Hd].
      * apply elem_of_app. right. apply elem_of_app. left.
        destruct (2 <? length high)%nat.
        -- apply elem_of_app. by right.
        -- apply (elem_take_more 2 3); [lia | done].
      * apply elem_of_app. right. apply elem_of_app. right. apply elem_of_app. left.
        apply elem_drop_length in Hd as Hlen. apply Nat.ltb_lt in Hlen.
        rewrite Hlen. apply elem_of_app. by left.
    + assert (Hin : r ∈ low) by by apply Hlow.
      destruct (elem_take_or_drop 2 low r Hin) as [Ht|Hd].
      * apply elem_of_app. right. apply elem_of_app. right. apply elem_of_app. left.
        destruct (2 <? length medium)%nat.
        -- apply elem_of_app. by right.
        -- apply (elem_take_more 2 3); [lia | done].
      * do 3 (apply elem_of_app; right).
        apply elem_drop_length in Hd as Hlen. apply Nat.ltb_lt in Hlen.
        by rewrite Hlen.
Qed.

(** ** The skills read from a reply *)

Lemma fold_left_invariant {A B : Type} (f : A → B → A) (P : A → Prop)
    (l : list B) (a : A) :
  (∀ a x, P a → P (f a x)) → P a → P (fold_left f l a).
Proof.
  intros Hf. revert a. induction l as [|x l IH]; intros a Ha; simpl; [done|].
  apply IH, Hf, Ha.
Qed.

(** X12. Whatever the reply, the dictionary that [_parse_skills] returns has
    exactly the three keys "technical", "soft" and "domain", and every skill
    in its lists has more than two characters. *)
Theorem parsed_skills_are_well_formed (text : str) :
  dom (SkillAnalyzer._parse_skills text)
  = (list_to_set SkillAnalyzer.categories : gset string)
  ∧ ∀ category skills skill,
      SkillAnalyzer._parse_skills text !! category = Some skills →
      skill ∈ skills → (2 < length skill)%nat.
Proof.
  unfold SkillAnalyzer._parse_skills.
  set (P := λ st : gmap string (list str) * option string,
         dom st.1 = (list_to_set SkillAnalyzer.categories : gset string)
         ∧ ∀ category skills skill,
             st.1 !! category = Some skills → skill ∈ skills →
             (2 < length skill)%nat).
  apply (fold_left_invariant SkillAnalyzer.skills_step P).
  - intros [skills cat] raw [Hdom Hlen].
    unfold SkillAnalyzer.skills_step. set (line := strip raw).
    repeat (case_match; [by split|]).
    destruct cat as [category|]; [|by split].
    case_match; [|by split].
    destruct (nonempty _ && (2 <? _)%nat) eqn:E; [|by split].
    apply andb_true_iff in E as [_ E]. apply Nat.ltb_lt in E.
    unfold P, SkillAnalyzer.append_to. simpl. split.
    + by rewrite dom_alter_L.
    + intros c l s. rewrite lookup_alter.
      destruct (decide (category = c)) as [->|Hne]; [|apply Hlen].
      destruct (skills !! c) as [l0|] eqn:El; [|done]. simpl.
      intros [= <-] [Hs|Hs]%elem_of_app.
      * by apply (Hlen c l0).
      * by apply list_elem_of_singleton in Hs as ->.
  - split.
    + unfold SkillAnalyzer.empty_skills, SkillAnalyzer.categories. simpl.
      rewrite !dom_insert_L, dom_empty_L. set_solver.
    + intros c l s. unfold SkillAnalyzer.empty_skills. simpl.
      intros Hl Hs.
      assert (l = []) as ->; [|by apply elem_of_nil in Hs].
      destruct (decide (c = "technical")) as [->|?];
        [by rewrite lookup_insert_eq in Hl; injection Hl|].
      rewrite lookup_insert_ne in Hl by done.
      destruct (decide (c = "soft")) as [->|?];
        [by rewrite lookup_insert_eq in Hl; injection Hl|].
      rewrite lookup_insert_ne in Hl by done.
      destruct (decide (c = "domain")) as [->|?];
        [by rewrite lookup_insert_eq in Hl; injection Hl|].
      by rewrite lookup_insert_ne in Hl.
Qed.

(** ** More on the skill gaps *)

Lemma contains_refl (s : str) : contains s s = true.
Proof. apply contains_spec. exists [], []. by rewrite app_nil_r. Qed.

Lemma skills_similar_sym (a b : str) :
  SkillAnalyzer._skills_similar a b = SkillAnalyzer._skills_similar b a.
Proof.
  unfold SkillAnalyzer._skills_similar.
  rewrite (orb_comm (size (SkillAnalyzer.skill_words a) =? 0)%nat).
  rewrite (Nat.max_comm (size (SkillAnalyzer.skill_words a))).
  by rewrite (comm_L (∩) (SkillAnalyzer.skill_words a)).
Qed.

(** X13. The test by which [analyze_skill_gaps] matches a job skill with a
    resume skill is symmetric: it gives the same answer when the two skills
    are exchanged, and a skill always matches itself, whatever the letter
    case. *)
Theorem skill_match_is_symmetric (a b : str) :
  SkillAnalyzer.skill_matches a b = SkillAnalyzer.skill_matches b a
  ∧ (lower a = lower b → SkillAnalyzer.skill_matches a b = true).
Proof.
  unfold SkillAnalyzer.skill_matches. split.
  - rewrite (skills_similar_sym (lower a)).
    by rewrite (orb_comm (contains (lower a) (lower b))).
  - intros ->. by rewrite contains_refl.
Qed.

Lemma skill_match_is_symmetric_witness :
  lower (s2l "Python") = lower (s2l "PYTHON")
  ∧ SkillAnalyzer.skill_matches (s2l "Python") (s2l "PYTHON") = true.
Proof.
  assert (H : lower (s2l "Python") = lower (s2l "PYTHON")) by (vm_compute; reflexivity).
  split; [exact H|].
  exact (proj2 (skill_match_is_symmetric (s2l "Python") (s2l "PYTHON")) H).
Defined.

Section PercentageValues.
Import SkillAnalyzer.

Lemma round_half_even_int (q : Q) (z : Z) :
  (q == inject_Z z)%Q → round_half_even q = z.
Proof.
  intros Hq. unfold round_half_even.
  assert (Hf : Qfloor q = z) by (rewrite Hq; apply Qfloor_Z).
  rewrite Hf.
  assert (Hlt : (q - inject_Z z < 1 # 2)%Q) by (rewrite Hq; lra).
  destruct (Qcompare (q - inject_Z z) (1 # 2)) eqn:E; [|done|].
  - apply Qeq_alt in E. lra.
  - apply Qgt_alt in E. lra.
Qed.

Lemma round1_int (q : Q) (z : Z) :
  (q == inject_Z z)%Q → (round1 q == inject_Z z)%Q.
Proof.
  intros Hq. unfold round1.
  rewrite (round_half_even_int (q * 10) (z * 10)).
  - rewrite inject_Z_mult. change (inject_Z 10) with 10%Q. field.
  - rewrite Hq, inject_Z_mult. reflexivity.
Qed.

Lemma filter_all {A : Type} (f : A → bool) (l : list A) :
  (∀ x, x ∈ l → f x = true) → List.filter f l = l.
Proof.
  induction l as [|x l IH]; intros H; simpl; [done|].
  rewrite (H x) by left. f_equal. apply IH. intros y Hy. apply H. by right.
Qed.

Lemma filter_none {A : Type} (f : A → bool) (l : list A) :
  (∀ x, x ∈ l → f x = false) → List.filter f l = [].
Proof.
  induction l as [|x l IH]; intros H; simpl; [done|].
  rewrite (H x) by left. apply IH. intros y Hy. apply H. by right.
Qed.

(** The percentage, from the lists of matched and required skills. *)
Lemma match_percentage_value (resume job : gmap string (list str)) :
  let m := (length (matched_of resume job "technical")
            + (length (matched_of resume job "soft")
               + length (matched_of resume job "domain")))%nat in
  let n := (length (get_list job "technical")
            + (length (get_list job "soft")
               + (length (get_list job "domain") + 0)))%nat in
  match_percentage (analyze_skill_gaps resume job)
  = round1 (if (0 <? n)%nat
            then (inject_Z (Z.of_nat m) / inject_Z (Z.of_nat n) * 100)%Q
            else 0%Q).
Proof.
  intros m n.
  destruct (analyze_maps resume job) as [_ Hm].
  assert (Hpct : match_percentage (analyze_skill_gaps resume job)
                 = round1 (if (0 <? n)%nat
                           then (inject_Z (Z.of_nat (total_length
                                    (matched (analyze_skill_gaps resume job))))
                                 / inject_Z (Z.of_nat n) * 100)%Q
                           else 0%Q)).
  { unfold analyze_skill_gaps. destruct (fold_left _ _ _) as [g mm]. reflexivity. }
  rewrite Hpct, Hm, total_length_three. reflexivity.
Qed.
End PercentageValues.

(** X14. When every job skill of the three categories is matched by some
    resume skill of its category, and there is at least one job skill,
    [analyze_skill_gaps] reports no gap and a match percentage of 100. *)
Theorem all_matched_gives_100 (resume_skills job_skills : gmap string (list str)) :
  (∀ category s, category ∈ SkillAnalyzer.categories →
                 s ∈ SkillAnalyzer.get_list job_skills category →
                 is_matched (SkillAnalyzer.get_list resume_skills category) s = true) →
  (∃ category, category ∈ SkillAnalyzer.categories
               ∧ SkillAnalyzer.get_list job_skills category ≠ []) →
  let a := SkillAnalyzer.analyze_skill_gaps resume_skills job_skills in
  (SkillAnalyzer.match_percentage a == 100)%Q
  ∧ SkillAnalyzer.get_list (SkillAnalyzer.gaps a) "critical" = []
  ∧ SkillAnalyzer.get_list (SkillAnalyzer.gaps a) "moderate" = []
  ∧ SkillAnalyzer.get_list (SkillAnalyzer.gaps a) "minor" = [].
Proof.
  intros Hall (c0 & Hc0 & Hne) a.
  assert (Hcats : ∀ c, c ∈ SkillAnalyzer.categories →
            matched_of resume_skills job_skills c = SkillAnalyzer.get_list job_skills c
            ∧ unmatched_of resume_skills job_skills c = []).
  { intros c Hc. unfold matched_of, unmatched_of. split.
    - apply filter_all. intros s Hs. by apply Hall.
    - apply filter_none. intros s Hs. by rewrite Hall. }
  destruct (Hcats "technical") as [Mt Ut]; [in_categories|].
  destruct (Hcats "soft") as [Ms Us]; [in_categories|].
  destruct (Hcats "domain") as [Md Ud]; [in_categories|].
  destruct (analyze_maps resume_skills job_skills) as [Hg _]. fold a in Hg.
  split.
  - subst a. rewrite match_percentage_value, Mt, Ms, Md.
    set (n := (length _ + (length _ + (length _ + 0)))%nat).
    replace (length (SkillAnalyzer.get_list job_skills "technical")
             + (length (SkillAnalyzer.get_list job_skills "soft")
                + length (SkillAnalyzer.get_list job_skills "domain")))%nat
      with n by (subst n; lia).
    assert (Hn : (0 < n)%nat).
    { subst n. unfold SkillAnalyzer.categories in Hc0.
      repeat (apply elem_of_cons in Hc0 as [->|Hc0];
              [destruct (SkillAnalyzer.get_list job_skills _); [done | simpl; lia]|]).
      by apply elem_of_nil in Hc0. }
    apply Nat.ltb_lt in Hn as Hb. rewrite Hb.
    apply (round1_int _ 100).
    assert (Hq : ¬ (inject_Z (Z.of_nat n) == 0)%Q).
    { change 0%Q with (inject_Z 0). rewrite inject_Z_injective. lia. }
    change (inject_Z 100) with 100%Q. field. exact Hq.
  - rewrite Hg, Ut, Ud, Us. by repeat split.
Qed.

Lemma all_matched_gives_100_witness :
  let resume : gmap string (list str) :=
    <["technical" := [s2l "Python programming"; s2l "SQL"]]> ∅ in
  let job : gmap string (list str) :=
    <["technical" := [s2l "python"; s2l "sql databases"]]> ∅ in
  (SkillAnalyzer.match_percentage (SkillAnalyzer.analyze_skill_gaps resume job) == 100)%Q.
Proof.
  intros resume job.
  refine (proj1 (all_matched_gives_100 resume job _ _)).
  - intros category s Hc. unfold SkillAnalyzer.categories in Hc.
    repeat (apply elem_of_cons in Hc as [->|Hc]).
    + intros Hs. change (SkillAnalyzer.get_list job "technical")
        with [s2l "python"; s2l "sql databases"] in Hs.
      repeat (apply elem_of_cons in Hs as [->|Hs]; [vm_compute; reflexivity|]).
      by apply elem_of_nil in Hs.
    + intros Hs. by apply elem_of_nil in Hs.
    + intros Hs. by apply elem_of_nil in Hs.
    + by apply elem_of_nil in Hc.
  - exists "technical". split; [left | discriminate].
Defined.



(** ** More on the job search *)

Lemma job_of_hit_text (r : Search.Hit) : Search.text (Search.job_of_hit r) ≠ [].
Proof.
  unfold Search.job_of_hit. simpl.
  destruct (Search.hit_text r) as [[|c t]|]; simpl; done.
Qed.

(** What the loop appends is taken, in order, from the provider results that
    pass the filter. *)
Lemma collect_sublist (num_jobs : Z) (results : list Search.Hit)
    (all_results : list Search.Job) (seen_urls : gset str) :
  ∃ appended,
    Search.collect num_jobs results all_results seen_urls = all_results ++ appended
    ∧ appended `sublist_of` map Search.job_of_hit (List.filter passes results).
Proof.
  revert all_results seen_urls.
  induction results as [|r results IH]; intros all_results seen_urls.
  - exists []. simpl. by rewrite app_nil_r.
  - simpl Search.collect. fold (passes r). simpl List.filter.
    destruct (passes r) eqn:Hpass.
    + case_bool_decide.
      * destruct (num_jobs * 2 <=? _)%Z.
        -- exists [Search.job_of_hit r]. split; [done|].
           simpl. apply sublist_skip, sublist_nil_l.
        -- destruct (IH (all_results ++ [Search.job_of_hit r])
                       ({[Search.hit_url r]} ∪ seen_urls)) as (app & -> & Hsub).
           exists (Search.job_of_hit r :: app).
           split; [by rewrite <- app_assoc|]. simpl. by apply sublist_skip.
      * destruct (IH all_results seen_urls) as (app & -> & Hsub).
        exists app. split; [done|]. simpl. by apply sublist_cons.
    + destruct (IH all_results seen_urls) as (app & Ha & Hsub).
      exists app. split; [|done]. by case_bool_decide.
Qed.

(** X16. Every job that [search] returns comes from a provider result that
    passed the filter of job postings, the jobs keep the order of the
    provider results, none has an empty text, and [count] is their number. *)
Theorem search_returns_passing_results (invoke : result (list Search.Hit))
    (config : Search.JobSearchConfig) :
  ∃ r, Search.search invoke config = Ok r
       ∧ Search.raw_results r
         `sublist_of` map Search.job_of_hit (List.filter passes (provided invoke))
       ∧ (∀ job, job ∈ Search.raw_results r →
                 Search.text job ≠ []
                 ∧ ∃ hit, hit ∈ provided invoke ∧ passes hit = true
                          ∧ job = Search.job_of_hit hit)
       ∧ Search.count r = length (Search.raw_results r).
Proof.
  destruct (collect_sublist (Search.num_jobs config) (provided invoke) [] ∅)
    as (out & Hout & Hsub).
  simpl in Hout.
  exists {| Search.raw_results := out;
            Search.status := if decide (out = []) then s2l "no_results"
                             else s2l "success";
            Search.count := length out |}.
  split; [|split; [exact Hsub|split; [|done]]].
  - unfold Search.search. destruct invoke; simpl in *; by subst out.
  - simpl. intros job Hjob.
    apply (sublist_subseteq _ _ Hsub) in Hjob.
    apply list_elem_of_fmap in Hjob as (hit & -> & Hhit).
    apply list_elem_of_In, filter_In in Hhit as [Hin Hp].
    split; [apply job_of_hit_text|].
    exists hit. by rewrite list_elem_of_In.
Qed.

(** With fewer passing results left than the bound allows, the loop reaches
    every one of them. *)
Lemma collect_complete (num_jobs : Z) (results : list Search.Hit)
    (all_results : list Search.Job) (seen_urls : gset str) :
  (∀ u, u ∈ seen_urls ↔ u ∈ map Search.url all_results) →
  (Z.of_nat (length all_results + length (List.filter passes results))
   < num_jobs * 2)%Z →
  ∀ hit, hit ∈ results → passes hit = true →
         Search.hit_url hit
         ∈ map Search.url (Search.collect num_jobs results all_results seen_urls).
Proof.
  revert all_results seen_urls.
  induction results as [|r results IH]; intros all_results seen_urls Hseen Hlen hit Hin Hp.
  { by apply elem_of_nil in Hin. }
  destruct (collect_sublist num_jobs (r :: results) all_results seen_urls)
    as (app & Hcollect & _).
  simpl List.filter in Hlen. simpl Search.collect in *. fold (passes r) in *.
  case_bool_decide as Hfresh.
  - destruct (passes r) eqn:Hpass.
    + simpl length in Hlen.
      assert (Hlen' : length (all_results ++ [Search.job_of_hit r])
                      = S (length all_results)).
      { rewrite length_app. simpl. lia. }
      destruct (num_jobs * 2 <=? _)%Z eqn:Hstop; [apply Z.leb_le in Hstop; lia|].
      destruct (collect_sublist num_jobs results (all_results ++ [Search.job_of_hit r])
                  ({[Search.hit_url r]} ∪ seen_urls)) as (app' & Happ' & _).
      apply elem_of_cons in Hin as [->|Hin].
      * rewrite Happ', !map_app. simpl.
        apply elem_of_app. left. apply elem_of_app. right. by left.
      * apply IH; [| |done|done].
        -- intros u. rewrite map_app, elem_of_app, elem_of_union. simpl.
           rewrite <- Hseen, elem_of_singleton, list_elem_of_singleton. tauto.
        -- rewrite Hlen'. lia.
    + apply elem_of_cons in Hin as [->|Hin]; [congruence|].
      by apply IH.
  - assert (Hseen_r : Search.hit_url r ∈ seen_urls).
    { destruct (decide (Search.hit_url r ∈ seen_urls)); [done | by exfalso]. }
    assert (Hlen2 : (Z.of_nat (length all_results + length (List.filter passes results))
                     < num_jobs * 2)%Z).
    { destruct (passes r); simpl in Hlen; lia. }
    apply elem_of_cons in Hin as [->|Hin]; [|by apply IH].
    rewrite Hcollect, map_app. apply elem_of_app. left. by apply Hseen.
Qed.

(** X17. When fewer than [2 * num_jobs] of the provider results pass the
    filter of job postings, [search] drops none of them: the address of every
    passing result is the address of a returned job. *)
Theorem search_keeps_all_below_the_bound (results : list Search.Hit)
    (config : Search.JobSearchConfig) :
  (Z.of_nat (length (List.filter passes results)) < 2 * Search.num_jobs config)%Z →
  ∃ r, Search.search (Ok results) config = Ok r
       ∧ ∀ hit, hit ∈ results → passes hit = true →
                Search.hit_url hit ∈ map Search.url (Search.raw_results r).
Proof.
  intros Hlen. eexists. split; [reflexivity|]. simpl.
  apply collect_complete.
  - intros u. simpl. set_solver.
  - simpl. lia.
Qed.

Lemma search_keeps_all_below_the_bound_witness :
  let config := {| Search.job_title := s2l "engineer"; Search.location := None;
                   Search.work_style := None; Search.num_jobs := 5 |} in
  (Z.of_nat (length (List.filter passes [posting_hit])) < 2 * Search.num_jobs config)%Z
  ∧ ∃ r, Search.search (Ok [posting_hit]) config = Ok r
         ∧ Search.hit_url posting_hit ∈ map Search.url (Search.raw_results r).
Proof.
  intros config.
  assert (H : (Z.of_nat (length (List.filter passes [posting_hit]))
               < 2 * Search.num_jobs config)%Z) by (vm_compute; reflexivity).
  split; [exact H|].
  destruct (search_keeps_all_below_the_bound [posting_hit] config H) as (r & Hr & Hall).
  exists r. split; [exact Hr|].
  apply Hall; [by left | vm_compute; reflexivity].
Defined.

(** ** The processing of the jobs *)

(** The text that is audited is never empty. *)
Lemma job_text_nonempty (job : Search.Job) : JobProcessing.job_text job ≠ [].
Proof.
  unfold JobProcessing.job_text.
  destruct (Search.text job) as [|c t]; simpl; done.
Qed.

(** The entry built for a job. *)
Lemma processed_entry (job : Search.Job) (audit : Personalization.AuditResult) :
  let p := JobProcessing.processed job audit in
  JobProcessing.company p ≠ []
  ∧ (4 ≤ length (JobProcessing.description p) ≤ 503)%nat
  ∧ s2l "..." `suffix_of` JobProcessing.description p.
Proof.
  cbn [JobProcessing.processed JobProcessing.company JobProcessing.description].
  split; [|split].
  - destruct (JobProcessing._extract_company _) as [[|c t]|]; simpl; done.
  - pose proof (job_text_nonempty job) as Hne.
    rewrite length_app, length_take.
    change (length (s2l "...")) with 3%nat.
    destruct (JobProcessing.job_text job); [done|]. cbn [length]. lia.
  - by eexists.
Qed.

Lemma process_from_spec (audit_enabled : bool) (invoke : nat → result str)
    (i : nat) (raw_jobs : list Search.Job) :
  ∃ out,
    JobProcessing.process_from audit_enabled invoke i raw_jobs = Ok out
    ∧ map JobProcessing.url out = map Search.url raw_jobs
    ∧ map JobProcessing.title out = map Search.title raw_jobs
    ∧ Forall (λ p,
        JobProcessing.company p ≠ []
        ∧ (4 ≤ length (JobProcessing.description p) ≤ 503)%nat
        ∧ s2l "..." `suffix_of` JobProcessing.description p
        ∧ (JobProcessing.is_biased p = true ↔ (JobProcessing.audit_score p < 70)%Z)
        ∧ (audit_enabled = false → (45 ≤ JobProcessing.audit_score p ≤ 100)%Z)) out.
Proof.
  revert i. induction raw_jobs as [|job rest IH]; intros i.
  { exists []. by repeat split. }
  destruct (IH (S i)) as (out & Hout & Hurl & Htitle & Hall).
  destruct (audit_job_cases audit_enabled (invoke i) (JobProcessing.job_text job))
    as (audit & Haudit & Hcases).
  exists (JobProcessing.processed job audit :: out).
  split; [|split; [|split]].
  - cbn [JobProcessing.process_from]. rewrite Haudit. simpl. by rewrite Hout.
  - simpl. by rewrite Hurl.
  - simpl. by rewrite Htitle.
  - constructor; [|done].
    destruct (processed_entry job audit) as (Hc & Hd & Hs).
    split; [done|]. split; [done|]. split; [done|].
    cbn [JobProcessing.processed JobProcessing.is_biased JobProcessing.audit_score].
    destruct Hcases as [[-> Hoff] | [(resp & -> & Hinv & Hne & Hon)
                                    | (Hsc & Hb & Hf & Hon & Hinv)]].
    + split; [apply heuristic_flag|]. intros _. apply heuristic_score_in_range.
    + split; [apply parse_audit_flag | congruence].
    + split; [rewrite Hsc, Hb; split; [done | lia] | congruence].
Qed.

(** X18. [process_jobs] returns one entry for each job, in the order of the
    jobs and with their addresses and titles, whatever the calls to the model
    do.  In every entry the company is not empty, the description has at
    most 503 characters and ends with "...", and [is_biased] is set exactly
    when the audit score is below 70; with the audit disabled the score lies
    between 45 and 100. *)
Theorem process_jobs_keeps_the_jobs (audit_enabled : bool)
    (invoke : nat → result str) (raw_jobs : list Search.Job) :
  ∃ out,
    JobProcessing.process_jobs audit_enabled invoke raw_jobs = Ok out
    ∧ map JobProcessing.url out = map Search.url raw_jobs
    ∧ map JobProcessing.title out = map Search.title raw_jobs
    ∧ Forall (λ p,
        JobProcessing.company p ≠ []
        ∧ (4 ≤ length (JobProcessing.description p) ≤ 503)%nat
        ∧ s2l "..." `suffix_of` JobProcessing.description p
        ∧ (JobProcessing.is_biased p = true ↔ (JobProcessing.audit_score p < 70)%Z)
        ∧ (audit_enabled = false → (45 ≤ JobProcessing.audit_score p ≤ 100)%Z)) out.
Proof. apply process_from_spec. Qed.

(** X19. The search followed by the processing of its results, as the
    application runs them: both return, the entries shown have pairwise
    distinct addresses, there are [count] of them and at most
    [max 1 (2 * num_jobs)], and there is none exactly when the status of the
    search is "no_results". *)
Theorem shown_jobs_are_distinct (invoke_search : result (list Search.Hit))
    (config : Search.JobSearchConfig) (audit_enabled : bool)
    (invoke : nat → result str) :
  ∃ r out,
    Search.search invoke_search config = Ok r
    ∧ JobProcessing.process_jobs audit_enabled invoke (Search.raw_results r) = Ok out
    ∧ NoDup (map JobProcessing.url out)
    ∧ length out = Search.count r
    ∧ (Z.of_nat (length out) ≤ Z.max 1 (2 * Search.num_jobs config))%Z
    ∧ (out = [] ↔ Search.status r = s2l "no_results").
Proof.
  destruct (collect_spec (Search.num_jobs config) (provided invoke_search) [] ∅)
    as (Hnd & _ & Hlen & _).
  { constructor. }
  { intros u. simpl. set_solver. }
  { by left. }
  set (jobs := Search.collect (Search.num_jobs config) (provided invoke_search) [] ∅)
    in *.
  destruct (process_from_spec audit_enabled invoke 0 jobs)
    as (out & Hout & Hurl & _ & _).
  assert (Hl : length out = length jobs).
  { by rewrite <- (length_map JobProcessing.url), Hurl, length_map. }
  exists {| Search.raw_results := jobs;
            Search.status := if decide (jobs = []) then s2l "no_results"
                             else s2l "success";
            Search.count := length jobs |}, out.
  split; [|split; [exact Hout|split; [by rewrite Hurl|split; [exact Hl|split]]]].
  - unfold Search.search, jobs. by destruct invoke_search.
  - rewrite Hl. lia.
  - simpl. destruct (decide (jobs = [])) as [He|Hne].
    + split; [done|]. intros _. rewrite He in Hl. by destruct out.
    + split; [|done]. intros ->. by destruct jobs.
Qed.

(** X20. [search] returns no job whose address contains, in any case, one of
    the excluded patterns ("/blog/", "/search/", ...), even when the address
    also has a pattern of a job page; and no job whose title has one of the
    phrases of an aggregated listing or announces a number of jobs. *)
Theorem search_never_returns_excluded_pages (invoke : result (list Search.Hit))
    (config : Search.JobSearchConfig) :
  ∃ r, Search.search invoke config = Ok r
       ∧ ∀ job, job ∈ Search.raw_results r →
           (∀ pattern, pattern ∈ Search.exclude_patterns →
                       contains (s2l pattern) (lower (Search.url job)) = false)
           ∧ (∀ phrase, phrase ∈ Search.aggregated_phrases →
                        contains (s2l phrase) (Search.lower_or_empty (Search.title job))
                        = false)
           ∧ is_match Search.re_count_jobs (Search.lower_or_empty (Search.title job))
             = false.
Proof.
  destruct (collect_sublist (Search.num_jobs config) (provided invoke) [] ∅)
    as (out & Hout & Hsub).
  simpl in Hout.
  exists {| Search.raw_results := out;
            Search.status := if decide (out = []) then s2l "no_results"
                             else s2l "success";
            Search.count := length out |}.
  split.
  { unfold Search.search. destruct invoke; simpl in *; by subst out. }
  simpl. intros job Hjob.
  apply (sublist_subseteq _ _ Hsub) in Hjob.
  apply list_elem_of_fmap in Hjob as (hit & -> & Hhit).
  apply list_elem_of_In, filter_In in Hhit as [_ Hp].
  unfold passes, Search._is_job_posting in Hp.
  cbn [Search.job_of_hit Search.url Search.title].
  destruct (any_in Search.exclude_patterns (lower (Search.hit_url hit))) eqn:Hex;
    [done|].
  destruct (is_match Search.re_count_jobs _) eqn:Hcount; [done|].
  destruct (any_in Search.aggregated_phrases _) eqn:Hagg; [done|].
  split; [|split; [|done]].
  - intros pattern Hin. by apply (any_in_false Search.exclude_patterns).
  - intros phrase Hin. by apply (any_in_false Search.aggregated_phrases).
Qed.

(** ** The matcher and the texts of the patterns *)

Lemma star_greedy_sound {A : Type} (p : char → bool) (s : str) :
  ∀ (prev : option char) (k : option char → str → option A) (x : A),
    star_greedy p prev s k = Some x →
    ∃ t s' prev', s = t ++ s' ∧ Forall (λ c, p c = true) t ∧ k prev' s' = Some x.
Proof.
  induction s as [|c s IH]; intros prev k x H; simpl in H.
  - by exists [], [], prev.
  - destruct (p c) eqn:Hp; [|by exists [], (c :: s), prev].
    destruct (star_greedy p (Some c) s k) eqn:Hs.
    + injection H as ->.
      destruct (IH _ _ _ Hs) as (t & s' & prev' & -> & Ht & Hk).
      exists (c :: t), s', prev'. split; [done|]. split; [by constructor | done].
    + by exists [], (c :: s), prev.
Qed.

Lemma star_lazy_sound {A : Type} (p : char → bool) (s : str) :
  ∀ (prev : option char) (k : option char → str → option A) (x : A),
    star_lazy p prev s k = Some x →
    ∃ t s' prev', s = t ++ s' ∧ Forall (λ c, p c = true) t ∧ k prev' s' = Some x.
Proof.
  induction s as [|c s IH]; intros prev k x H; simpl in H.
  - destruct (k prev []) eqn:Hk; [|done]. injection H as ->.
    by exists [], [], prev.
  - destruct (k prev (c :: s)) eqn:Hk.
    + injection H as ->. by exists [], (c :: s), prev.
    + destruct (p c) eqn:Hp; [|done].
      destruct (IH _ _ _ H) as (t & s' & prev' & -> & Ht & Hk').
      exists (c :: t), s', prev'. split; [done|]. split; [by constructor | done].
Qed.

(** A successful run of the matcher took a text of the pattern from the
    front of the input and went on with the rest. *)
Lemma run_sound {A : Type} (r : regex) :
  ∀ (prev : option char) (s : str) (caps : captures)
    (k : option char → str → captures → option A) (x : A),
    run r prev s caps k = Some x →
    ∃ t s' prev' caps', s = t ++ s' ∧ den r t ∧ k prev' s' caps' = Some x.
Proof.
  induction r as [|p|r1 IH1 r2 IH2|r1 IH1 r2 IH2|p|p|i r IH|];
    intros prev s caps k x H; simpl in H.
  - by exists [], s, prev, caps.
  - destruct s as [|c s]; [done|]. destruct (p c) eqn:Hp; [|done].
    exists [c], s, (Some c), caps. split; [done|]. split; [by exists c | done].
  - destruct (IH1 _ _ _ _ _ H) as (t1 & s1 & prev1 & caps1 & -> & Ht1 & H2).
    destruct (IH2 _ _ _ _ _ H2) as (t2 & s2 & prev2 & caps2 & -> & Ht2 & Hk).
    exists (t1 ++ t2), s2, prev2, caps2.
    split; [by rewrite app_assoc|]. split; [by exists t1, t2 | done].
  - destruct (run r1 prev s caps k) eqn:H1.
    + injection H as ->.
      destruct (IH1 _ _ _ _ _ H1) as (t & s' & prev' & caps' & -> & Ht & Hk).
      exists t, s', prev', caps'. split; [done|]. split; [by left | done].
    + destruct (IH2 _ _ _ _ _ H) as (t & s' & prev' & caps' & -> & Ht & Hk).
      exists t, s', prev', caps'. split; [done|]. split; [by right | done].
  - destruct (star_greedy_sound _ _ _ _ _ H) as (t & s' & prev' & -> & Ht & Hk).
    by exists t, s', prev', caps.
  - destruct (star_lazy_sound _ _ _ _ _ H) as (t & s' & prev' & -> & Ht & Hk).
    by exists t, s', prev', caps.
  - destruct (IH _ _ _ _ _ H) as (t & s' & prev' & caps' & -> & Ht & Hk).
    by eexists t, s', prev', _.
  - destruct (at_boundary prev s); [|done]. by exists [], s, prev, caps.
Qed.

(** The same for a group, whose text is recorded. *)
Lemma run_group_sound {A : Type} (i : nat) (r : regex) (prev : option char)
    (s : str) (caps : captures) (k : option char → str → captures → option A)
    (x : A) :
  run (Grp i r) prev s caps k = Some x →
  ∃ t s' prev' caps', s = t ++ s' ∧ den r t ∧ k prev' s' ((i, t) :: caps') = Some x.
Proof.
  intros H. simpl in H.
  destruct (run_sound _ _ _ _ _ _ H) as (t & s' & prev' & caps' & Hs & Ht & Hk).
  exists t, s', prev', caps'. split; [done|]. split; [done|].
  rewrite <- Hk. do 2 f_equal. f_equal. subst s.
  rewrite length_app.
  replace (length t + length s' - length s')%nat with (length t) by lia.
  by rewrite take_app_length.
Qed.

(** [re.search] finds its match at some position of the text. *)
Lemma search_from_sound (r : regex) (s : str) :
  ∀ (prev : option char) (caps : captures),
    search_from r prev s = Some caps →
    ∃ pre s0 prev' rest, s = pre ++ s0 ∧ match_here r prev' s0 = Some (caps, rest).
Proof.
  induction s as [|c s IH]; intros prev caps H; rewrite search_from_unfold in H.
  - destruct (match_here r prev []) as [[caps' rest]|] eqn:Hm; [|done].
    injection H as ->. by exists [], [], prev, rest.
  - destruct (match_here r prev (c :: s)) as [[caps' rest]|] eqn:Hm.
    + injection H as ->. by exists [], (c :: s), prev, rest.
    + destruct (IH _ _ H) as (pre & s0 & prev' & rest & -> & Hm').
      by exists (c :: pre), s0, prev', rest.
Qed.

(** The text [m.group(0)] of the leftmost match is a text of the pattern and
    a piece of the text searched. *)
Lemma search_text_sound (r : regex) (s t : str) :
  Roadmap.search_text r s = Some t →
  den r t ∧ ∃ pre post, s = pre ++ t ++ post.
Proof.
  unfold Roadmap.search_text, search. intros H.
  destruct (search_from (Grp 0 r) None s) as [m|] eqn:Hs; [|done].
  injection H as <-.
  destruct (search_from_sound _ _ _ _ Hs) as (pre & s0 & prev' & rest & -> & Hm).
  unfold match_here in Hm.
  destruct (run_group_sound _ _ _ _ _ _ _ Hm)
    as (t & s' & prev'' & caps' & -> & Ht & Hk).
  injection Hk as <- <-.
  split; [exact Ht | by exists pre, s'].
Qed.

(** The characters of a text of a pattern are characters of its classes. *)
Lemma den_classes (P : char → Prop) (r : regex) :
  classes_in P r → ∀ t, den r t → Forall P t.
Proof.
  induction r as [|p|r1 IH1 r2 IH2|r1 IH1 r2 IH2|p|p|i r IH|];
    simpl; intros Hc t Ht.
  - by subst.
  - destruct Ht as (c & -> & Hp). constructor; [by apply Hc | constructor].
  - destruct Hc as [Hc1 Hc2]. destruct Ht as (t1 & t2 & -> & Ht1 & Ht2).
    apply Forall_app. split; [by apply IH1 | by apply IH2].
  - destruct Hc as [Hc1 Hc2]. destruct Ht as [Ht|Ht]; [by apply IH1 | by apply IH2].
  - eapply Forall_impl; [exact Ht | done].
  - eapply Forall_impl; [exact Ht | done].
  - by apply IH.
  - by subst.
Qed.

Lemma classes_in_star_upto (P : char → Prop) (n : nat) (r : regex) :
  classes_in P r → classes_in P (JobProcessing.star_upto n r).
Proof. intros Hr. induction n as [|n IH]; simpl; [done | by repeat split]. Qed.

Lemma den_rep_upto (n : nat) (p : char → bool) (t : str) :
  den (JobProcessing.rep_upto n p) t →
  (length t ≤ n)%nat ∧ Forall (λ c, p c = true) t.
Proof.
  revert t. induction n as [|n IH]; simpl; intros t Ht.
  - subst. split; [done | constructor].
  - destruct Ht as [(t1 & t2 & -> & (c & -> & Hp) & Ht2) | ->].
    + destruct (IH _ Ht2) as [Hl Hall]. simpl.
      split; [lia | by constructor].
    + split; [simpl; lia | constructor].
Qed.

Lemma run_seq_sound {A : Type} (r1 r2 : regex) (prev : option char) (s : str)
    (caps : captures) (k : option char → str → captures → option A) (x : A) :
  run (Seq r1 r2) prev s caps k = Some x →
  ∃ t s' prev' caps', s = t ++ s' ∧ den r1 t ∧ run r2 prev' s' caps' k = Some x.
Proof. rewrite run_seq. apply run_sound. Qed.

Lemma den_seq (r1 r2 : regex) (t : str) :
  den (Seq r1 r2) t → ∃ t1 t2, t = t1 ++ t2 ∧ den r1 t1 ∧ den r2 t2.
Proof. done. Qed.

Lemma den_cls (p : char → bool) (t : str) :
  den (Cls p) t → ∃ c, t = [c] ∧ p c = true.
Proof. done. Qed.

Lemma den_grp (i : nat) (r : regex) (t : str) : den (Grp i r) t → den r t.
Proof. done. Qed.

Lemma den_chr (c : char) (t : str) : den (chr c) t → t = [c].
Proof. intros (x & -> & Hx). by apply N.eqb_eq in Hx as <-. Qed.

(** X21. The salary [_extract_salary] finds is a piece of the text: a dollar
    sign and a decimal digit, followed by nothing but digits, commas and the
    letters k and K. *)
Theorem extracted_salary_is_an_amount (text t : str) :
  JobProcessing._extract_salary text = Some t →
  (∃ pre post, text = pre ++ t ++ post)
  ∧ ∃ d rest, t = s2l "$" ++ d :: rest
              ∧ isdecimal d = true
              ∧ Forall (λ c, isdecimal c = true ∨ [c] = s2l "," ∨ [c] = s2l "k"
                             ∨ [c] = s2l "K") rest.
Proof.
  unfold JobProcessing._extract_salary. intros H.
  apply search_text_sound in H as [Hden Hin]. split; [exact Hin|].
  unfold JobProcessing.re_salary in Hden. cbn [seqs] in Hden.
  apply den_seq in Hden as (t1 & t2 & -> & Hd & Hg).
  apply den_chr in Hd as ->.
  apply den_grp, den_seq in Hg as (u1 & u2 & -> & Hdig & Hrest).
  apply den_cls in Hdig as (d & -> & Hdig).
  exists d, u2. split; [reflexivity|]. split; [exact Hdig|].
  revert Hrest. apply den_classes.
  change (lit ",") with (Cls (N.eqb 44)).
  change (lit "k") with (Cls (N.eqb 107)). change (lit "K") with (Cls (N.eqb 75)).
  assert (Hdec : ∀ c, isdecimal c = true →
                      isdecimal c = true ∨ [c] = s2l "," ∨ [c] = s2l "k"
                      ∨ [c] = s2l "K") by (intros c Hc; by left).
  split; [|split].
  - clear -Hdec. unfold JobProcessing.rep_upto, opt. cbn [classes_in]. tauto.
  - apply classes_in_star_upto. cbn [classes_in].
    split; [|tauto].
    intros c Hc. apply N.eqb_eq in Hc as <-. right. by left.
  - unfold opt. cbn [classes_in].
    repeat split; intros c Hc; apply N.eqb_eq in Hc as <-.
    + right. right. by left.
    + by do 3 right.
Qed.

Lemma extracted_salary_is_an_amount_witness :
  JobProcessing._extract_salary (s2l "Pay: $120,000 a year") = Some (s2l "$120,000")
  ∧ ∃ pre post, s2l "Pay: $120,000 a year" = pre ++ s2l "$120,000" ++ post.
Proof.
  assert (H : JobProcessing._extract_salary (s2l "Pay: $120,000 a year")
              = Some (s2l "$120,000")) by (vm_compute; reflexivity).
  split; [exact H|].
  exact (proj1 (extracted_salary_is_an_amount _ _ H)).
Defined.

(** X22. The company [_extract_company] finds is a piece of the text of 3 to
    31 characters: a capital letter A-Z followed by letters a-z and A-Z,
    white space and the character "&". *)
Theorem extracted_company_is_a_name (text c : str) :
  JobProcessing._extract_company text = Some c →
  (∃ pre post, text = pre ++ c ++ post)
  ∧ (3 ≤ length c ≤ 31)%nat
  ∧ (∃ c0 rest, c = c0 :: rest ∧ JobProcessing.is_ascii_upper c0 = true)
  ∧ Forall (λ x, JobProcessing.is_ascii_lower x = true
                 ∨ JobProcessing.is_ascii_upper x = true
                 ∨ isspace x = true ∨ [x] = s2l "&") c.
Proof.
  unfold JobProcessing._extract_company, search. intros H.
  destruct (search_from JobProcessing.re_company None text) as [m|] eqn:Hs; [|done].
  injection H as <-.
  apply search_from_sound in Hs as (pre & s0 & prev' & rest & -> & Hm).
  unfold match_here, JobProcessing.re_company in Hm. cbn [seqs] in Hm.
  apply run_seq_sound in Hm as (tA & s1 & p1 & c1 & -> & _ & Hm).
  apply run_seq_sound in Hm as (tB & s2 & p2 & c2 & -> & _ & Hm).
  apply run_seq_sound in Hm as (tC & s3 & p3 & c3 & -> & _ & Hm).
  apply run_group_sound in Hm as (t & s4 & p4 & c4 & -> & Ht & Hk).
  injection Hk as <- <-.
  change (group_text 1 ((1%nat, t) :: c4)) with t.
  split.
  { exists (pre ++ tA ++ tB ++ tC), s4. by rewrite <- !app_assoc. }
  cbv zeta in Ht. cbn [seqs] in Ht.
  apply den_seq in Ht as (t1 & t1' & -> & H1 & Ht).
  apply den_seq in Ht as (t2 & t2' & -> & H2 & Ht).
  apply den_seq in Ht as (t3 & t4 & -> & H3 & Ht).
  apply den_cls in H1 as (x1 & -> & H1).
  apply den_cls in H2 as (x2 & -> & H2).
  apply den_cls in H3 as (x3 & -> & H3).
  apply den_rep_upto in Ht as [Hl Hall].
  assert (Hp : ∀ x, JobProcessing.is_ascii_lower x || JobProcessing.is_ascii_upper x
                    || isspace x || (x =? 38)%N = true →
                    JobProcessing.is_ascii_lower x = true
                    ∨ JobProcessing.is_ascii_upper x = true
                    ∨ isspace x = true ∨ [x] = s2l "&").
  { intros x Hx. rewrite !orb_true_iff in Hx.
    destruct Hx as [[[Hx|Hx]|Hx]|Hx]; [tauto..|].
    apply N.eqb_eq in Hx as ->. by do 3 right. }
  split; [simpl; lia|]. split; [by exists x1, ([x2] ++ [x3] ++ t4)|].
  constructor; [tauto|]. constructor; [by apply Hp|]. constructor; [by apply Hp|].
  eapply Forall_impl; [exact Hall | exact Hp].
Qed.

Lemma extracted_company_is_a_name_witness :
  JobProcessing._extract_company (s2l "employer: Acme Corp") = Some (s2l "Acme Corp")
  ∧ (3 ≤ length (s2l "Acme Corp") ≤ 31)%nat.
Proof.
  assert (H : JobProcessing._extract_company (s2l "employer: Acme Corp")
              = Some (s2l "Acme Corp")) by (vm_compute; reflexivity).
  split; [exact H|].
  exact (proj1 (proj2 (extracted_company_is_a_name _ _ H))).
Defined.

(** ** Replies in the format of the prompts *)

Lemma str_eqb_eq (a b : str) : str_eqb a b = true ↔ a = b.
Proof.
  revert b. induction a as [|x a IH]; intros [|y b]; simpl; try done.
  rewrite andb_true_iff, N.eqb_eq, IH. split; [by intros [-> ->] | by intros [= -> ->]].
Qed.

Lemma char_in_elem (cs : str) (c : char) : char_in cs c = true ↔ c ∈ cs.
Proof.
  unfold char_in. rewrite existsb_exists. split.
  - intros (x & Hx & ->%N.eqb_eq). by apply list_elem_of_In.
  - intros H. exists c. split; [by apply list_elem_of_In | apply N.eqb_refl].
Qed.

Lemma split_without (sep : char) (l : str) : sep ∉ l → split sep l = [l].
Proof.
  induction l as [|c l IH]; intros Hn; simpl; [done|].
  destruct (c =? sep)%N eqn:E.
  - apply N.eqb_eq in E as ->. exfalso. apply Hn. by left.
  - rewrite IH; [done|]. intros H. apply Hn. by right.
Qed.

Lemma split_app (sep : char) (l s : str) :
  sep ∉ l → split sep (l ++ sep :: s) = l :: split sep s.
Proof.
  induction l as [|c l IH]; intros Hn; simpl.
  - by rewrite N.eqb_refl.
  - destruct (c =? sep)%N eqn:E.
    + apply N.eqb_eq in E as ->. exfalso. apply Hn. by left.
    + rewrite IH; [done|]. intros H. apply Hn. by right.
Qed.

(** Lines without a line break are what [split] gives back after [join]. *)
Lemma split_join (sep : char) (ls : list str) :
  ls ≠ [] → Forall (λ l, sep ∉ l) ls → split sep (join [sep] ls) = ls.
Proof.
  induction ls as [|l ls IH]; [done|]. intros _ Hall.
  apply Forall_cons in Hall as [Hl Hall].
  destruct ls as [|l' ls].
  - simpl. by apply split_without.
  - rewrite join_cons by done. simpl app.
    rewrite split_app by done. f_equal. by apply IH.
Qed.

Lemma dropwhile_length (p : char → bool) (s : str) :
  (length (dropwhile p s) ≤ length s)%nat.
Proof.
  induction s as [|c s IH]; simpl; [done|]. destruct (p c); simpl; lia.
Qed.

Lemma dropwhile_fixed (p : char → bool) (c : char) (s : str) :
  dropwhile p (c :: s) = c :: s → p c = false.
Proof.
  simpl. destruct (p c); [|done]. intros H.
  pose proof (dropwhile_length p s) as Hl. rewrite H in Hl. simpl in Hl. lia.
Qed.

Lemma dropwhile_stop (p : char → bool) (c : char) (s : str) :
  p c = false → dropwhile p (c :: s) = c :: s.
Proof. intros H. simpl. by rewrite H. Qed.

(** A non-empty string that [strip] leaves as it is begins and ends with a
    character that is not white space. *)
Lemma strip_fixed (c : char) (v : str) :
  strip (c :: v) = c :: v →
  isspace c = false
  ∧ ∃ d w, rev (c :: v) = d :: w ∧ isspace d = false.
Proof.
  unfold strip, rstrip, lstrip. intros H.
  assert (Hc : isspace c = false).
  { destruct (isspace c) eqn:E; [|done]. exfalso.
    apply (f_equal length) in H. rewrite length_rev in H.
    pose proof (dropwhile_length isspace (rev (dropwhile isspace (c :: v)))) as H1.
    rewrite length_rev in H1.
    assert (H2 : (length (dropwhile isspace (c :: v)) ≤ length v)%nat).
    { simpl. rewrite E. apply dropwhile_length. }
    simpl length in H at 2. lia. }
  split; [done|].
  rewrite dropwhile_stop in H by done.
  apply (f_equal (@rev char)) in H. rewrite rev_involutive in H.
  destruct (rev (c :: v)) as [|d w] eqn:Hr.
  { apply (f_equal length) in Hr. rewrite length_rev in Hr. done. }
  exists d, w. split; [done|]. by apply dropwhile_fixed in H.
Qed.

(** [strip] leaves a string as it is when it begins and ends with a
    character that is not white space. *)
Lemma strip_stop (a d : char) (s w : str) :
  isspace a = false → rev (a :: s) = d :: w → isspace d = false →
  strip (a :: s) = a :: s.
Proof.
  intros Ha Hr Hd. unfold strip, rstrip, lstrip.
  rewrite dropwhile_stop by done. rewrite Hr, dropwhile_stop by done.
  by rewrite <- Hr, rev_involutive.
Qed.

Lemma startswith_app (p s : str) : startswith p (p ++ s) = true.
Proof. apply startswith_spec. by exists s. Qed.

Lemma replace_from_skip (old new pre s : str) :
  replace_from old new (pre ++ s) (length pre) = replace_from old new s 0.
Proof.
  induction pre as [|c pre IH]; simpl; [|done].
  by destruct s.
Qed.

Lemma replace_absent (old new s : str) :
  contains old s = false → replace old new s = s.
Proof.
  unfold replace. induction s as [|c s IH]; simpl; [done|].
  intros [H1 H2]%orb_false_iff.
  cbn [startswith] in H1. simpl in H1. rewrite H1. by rewrite IH.
Qed.

Lemma dropwhile_app_all (p : char → bool) (pre s : str) :
  Forall (λ c, p c = true) pre → dropwhile p (pre ++ s) = dropwhile p s.
Proof. induction 1 as [|c pre Hc _ IH]; simpl; [done | by rewrite Hc]. Qed.

(** [strip] removes the white space around a string that has none at its
    ends. *)
Lemma strip_core (pre core post : str) :
  Forall (λ c, isspace c = true) pre → Forall (λ c, isspace c = true) post →
  strip core = core → strip (pre ++ core ++ post) = core.
Proof.
  intros Hpre Hpost Hcore. unfold strip, rstrip, lstrip.
  rewrite dropwhile_app_all by done.
  destruct core as [|c v].
  - simpl app. rewrite <- (app_nil_r post) at 1.
    by rewrite dropwhile_app_all by done.
  - destruct (strip_fixed c v Hcore) as (Hc & d & w & Hr & Hd).
    change ((c :: v) ++ post) with (c :: v ++ post).
    rewrite dropwhile_stop by done.
    change (c :: v ++ post) with ((c :: v) ++ post).
    rewrite rev_app_distr, dropwhile_app_all by (by apply Forall_rev).
    rewrite Hr, dropwhile_stop by done. by rewrite <- Hr, rev_involutive.
Qed.

Lemma replace_cons (old new : str) (c : char) (s : str) :
  startswith old (c :: s) = false →
  replace old new (c :: s) = c :: replace old new s.
Proof. unfold replace. intros H. cbn [replace_from]. by rewrite H. Qed.

Lemma replace_prefix (old s : str) :
  old ≠ [] → replace old [] (old ++ s) = replace old [] s.
Proof.
  destruct old as [|a l]; [done|]. intros _. unfold replace.
  pose proof (startswith_app (a :: l) s) as Hst.
  change ((a :: l) ++ s) with (a :: (l ++ s)) in *.
  cbn [replace_from]. rewrite Hst.
  replace (length (a :: l) - 1)%nat with (length l) by (simpl; lia).
  apply replace_from_skip.
Qed.

(** The line "label value" of a reply: [strip] keeps the label in front, and
    the value is what is read from the line. *)
Lemma written_line (label : string) (a d : char) (l w : str) (v : str) :
  s2l label = a :: l → rev (s2l label) = d :: w →
  isspace a = false → isspace d = false →
  plain label v = true →
  ∃ tail, strip (s2l label ++ s2l " " ++ v) = s2l label ++ tail
          ∧ Learning.field_value label (s2l label ++ tail) = v.
Proof.
  intros Hl Hr Ha Hd Hv. unfold plain in Hv.
  apply andb_true_iff in Hv as [[Hs Hn]%andb_true_iff Hc].
  apply str_eqb_eq in Hs. apply negb_true_iff in Hc.
  assert (Hlabel : strip (s2l label) = s2l label).
  { rewrite Hl. apply (strip_stop a d l w); [done | by rewrite <- Hl | done]. }
  assert (Hne : s2l label ≠ []) by (by rewrite Hl).
  assert (Hsp : Forall (λ c, isspace c = true) (s2l " ")).
  { constructor; [reflexivity | constructor]. }
  unfold Learning.field_value.
  destruct v as [|c v].
  - exists []. rewrite !app_nil_r. split.
    + rewrite <- (strip_core [] (s2l label) (s2l " ")) at 2; done.
    + rewrite <- (app_nil_r (s2l label)) at 2. by rewrite replace_prefix.
  - destruct (strip_fixed c v Hs) as (Hc0 & d' & w' & Hr' & Hd').
    exists (s2l " " ++ c :: v). split.
    + assert (E : s2l label ++ s2l " " ++ c :: v = a :: (l ++ s2l " " ++ c :: v))
        by (by rewrite Hl).
      rewrite E.
      apply (strip_stop a d' _ (w' ++ rev (s2l " ") ++ rev (s2l label)));
        [done| |done].
      rewrite <- E, !rev_app_distr, Hr'. by rewrite <- app_assoc.
    + rewrite replace_prefix by done.
      change (s2l " " ++ c :: v) with (N_of_ascii " " :: c :: v).
      rewrite replace_cons.
      2:{ rewrite Hl. simpl. apply andb_false_iff. left. apply N.eqb_neq.
          by intros ->. }
      rewrite replace_absent by done.
      apply (strip_core (s2l " ") (c :: v) []) in Hs; [|done|constructor].
      by rewrite app_nil_r in Hs.
Qed.

Lemma step_skill (recs : list Learning.Recommendation) (v : str) :
  plain "SKILL:" v = true →
  Learning.rec_step (recs, Learning.empty_rec) (s2l "SKILL: " ++ v)
  = (recs, {| Learning.skill := Some v; Learning.course := None;
              Learning.platform := None; Learning.duration := None;
              Learning.priority := None |}).
Proof. intros H. read_line (written_line "SKILL:") H. reflexivity. Qed.

Lemma step_course (recs : list Learning.Recommendation)
    (cur : Learning.Recommendation) (v : str) :
  plain "COURSE:" v = true →
  Learning.rec_step (recs, cur) (s2l "COURSE: " ++ v)
  = (recs, {| Learning.skill := Learning.skill cur; Learning.course := Some v;
              Learning.platform := Learning.platform cur;
              Learning.duration := Learning.duration cur;
              Learning.priority := Learning.priority cur |}).
Proof. intros H. read_line (written_line "COURSE:") H. reflexivity. Qed.

Lemma step_platform (recs : list Learning.Recommendation)
    (cur : Learning.Recommendation) (v : str) :
  plain "PLATFORM:" v = true →
  Learning.rec_step (recs, cur) (s2l "PLATFORM: " ++ v)
  = (recs, {| Learning.skill := Learning.skill cur;
              Learning.course := Learning.course cur;
              Learning.platform := Some v;
              Learning.duration := Learning.duration cur;
              Learning.priority := Learning.priority cur |}).
Proof. intros H. read_line (written_line "PLATFORM:") H. reflexivity. Qed.

Lemma step_duration (recs : list Learning.Recommendation)
    (cur : Learning.Recommendation) (v : str) :
  plain "DURATION:" v = true →
  Learning.rec_step (recs, cur) (s2l "DURATION: " ++ v)
  = (recs, {| Learning.skill := Learning.skill cur;
              Learning.course := Learning.course cur;
              Learning.platform := Learning.platform cur;
              Learning.duration := Some v;
              Learning.priority := Learning.priority cur |}).
Proof. intros H. read_line (written_line "DURATION:") H. reflexivity. Qed.

Lemma step_priority (recs : list Learning.Recommendation)
    (cur : Learning.Recommendation) (v : str) :
  plain "PRIORITY:" v = true →
  Learning.rec_step (recs, cur) (s2l "PRIORITY: " ++ v)
  = (recs, {| Learning.skill := Learning.skill cur;
              Learning.course := Learning.course cur;
              Learning.platform := Learning.platform cur;
              Learning.duration := Learning.duration cur;
              Learning.priority := Some v |}).
Proof. intros H. read_line (written_line "PRIORITY:") H. reflexivity. Qed.

(** The six lines of a block add its recommendation. *)
Lemma fold_block (recs : list Learning.Recommendation) (c : Course)
    (rest : list str) :
  well_written c = true →
  fold_left Learning.rec_step (written c ++ rest) (recs, Learning.empty_rec)
  = fold_left Learning.rec_step rest (recs ++ [rec_of c], Learning.empty_rec).
Proof.
  unfold well_written. rewrite !andb_true_iff.
  intros [[[[Hs Hc] Hp] Hd] Hpr].
  unfold written. cbn [app fold_left].
  rewrite step_skill, step_course, step_platform, step_duration, step_priority
    by done.
  reflexivity.
Qed.

Lemma fold_blocks (cs : list Course) :
  ∀ (recs : list Learning.Recommendation) (rest : list str),
    forallb well_written cs = true →
    fold_left Learning.rec_step (flat_map written cs ++ rest)
      (recs, Learning.empty_rec)
    = fold_left Learning.rec_step rest (recs ++ map rec_of cs, Learning.empty_rec).
Proof.
  induction cs as [|c cs IH]; intros recs rest Hall; cbn [flat_map map].
  - by rewrite app_nil_r.
  - simpl in Hall. apply andb_true_iff in Hall as [Hc Hall].
    rewrite <- app_assoc, fold_block, IH by done.
    by rewrite <- app_assoc.
Qed.

Lemma plain_line (label : string) (pre v : str) :
  newline ∉ pre → plain label v = true → newline ∉ pre ++ v.
Proof.
  unfold plain. intros Hpre [[_ Hn]%andb_true_iff _]%andb_true_iff.
  apply negb_true_iff in Hn.
  rewrite elem_of_app. intros [H|H]; [done|].
  apply char_in_elem in H. congruence.
Qed.

(** X23. A reply in the format the prompt of [recommend_learning_resources]
    asks for - blocks of the lines "SKILL: ...", "COURSE: ...",
    "PLATFORM: ...", "DURATION: ...", "PRIORITY: ..." and "---" - is parsed
    into one recommendation for each block, in the order of the blocks and
    with the values as written, provided no value has white space at its
    ends, a line break, or its own label inside. *)
Theorem written_recommendations_are_read_back (cs : list Course) :
  forallb well_written cs = true →
  Learning._parse_recommendations (reply_of cs) = map rec_of cs.
Proof.
  intros Hall. unfold Learning._parse_recommendations, reply_of.
  destruct cs as [|c cs]; [reflexivity|].
  rewrite split_join.
  - rewrite <- (app_nil_r (flat_map written (c :: cs))).
    rewrite fold_blocks by done. reflexivity.
  - done.
  - apply Forall_forall. intros line Hline.
    apply list_elem_of_In, in_flat_map in Hline as (b & Hb & Hline).
    assert (Hw : well_written b = true).
    { rewrite forallb_forall in Hall. by apply Hall. }
    unfold well_written in Hw. rewrite !andb_true_iff in Hw.
    destruct Hw as [[[[Hs Hc] Hp] Hd] Hpr].
    assert (Hlabel : ∀ l : string, newline ∉ s2l l ↔ char_in (s2l l) newline = false).
    { intros l. rewrite <- char_in_elem. by destruct (char_in _ _). }
    unfold written in Hline. cbn [In] in Hline.
    destruct Hline as [<-|[<-|[<-|[<-|[<-|[<-|[]]]]]]];
      first [ eapply plain_line; [by apply Hlabel | eassumption]
            | by apply Hlabel ].
Qed.

Lemma written_recommendations_are_read_back_witness :
  let c := {| c_skill := s2l "Docker"; c_course := s2l "Docker Mastery";
              c_platform := s2l "Udemy"; c_duration := s2l "6 weeks";
              c_priority := s2l "High" |} in
  forallb well_written [c; c] = true
  ∧ Learning._parse_recommendations (reply_of [c; c]) = [rec_of c; rec_of c].
Proof.
  intros c.
  assert (H : forallb well_written [c; c] = true) by (vm_compute; reflexivity).
  split; [exact H|].
  exact (written_recommendations_are_read_back [c; c] H).
Defined.

(** ** Audits that report no issue *)

Section CleanAudits.
Import EthicsAuditor.
#[local] Open Scope Z_scope.

Lemma clean_refl (st : audit_state) : stays_clean st st.
Proof. intros H. split; [done | lia]. Qed.

Lemma clean_trans (a b c : audit_state) :
  stays_clean a b → stays_clean b c → stays_clean a c.
Proof.
  intros Hab Hbc Hc. destruct (Hbc Hc) as [Hb Hs]. destruct (Hab Hb) as [Ha Hs'].
  split; [done | lia].
Qed.

Lemma clean_report (issue msg : string) (f : Z → Z) (st : audit_state) :
  stays_clean st (report issue msg f st).
Proof. intros H. simpl in H. by destruct (st_issues st). Qed.

Lemma clean_add_score (d : Z) (st : audit_state) :
  0 ≤ d → stays_clean st (add_score d st).
Proof. intros Hd H. simpl in *. split; [done | lia]. Qed.

Lemma clean_fold_left {B : Type} (f : audit_state → B → audit_state) (l : list B) :
  (∀ st x, stays_clean st (f st x)) →
  ∀ st, stays_clean st (fold_left f l st).
Proof.
  intros Hf. induction l as [|x l IH]; intros st; simpl.
  - apply clean_refl.
  - eapply clean_trans; [apply Hf | apply IH].
Qed.

Lemma clean_structure_bonus (threshold keyword_count : nat) (st : audit_state) :
  stays_clean st (structure_bonus threshold keyword_count st).
Proof.
  unfold structure_bonus. case_match; [by apply clean_add_score | apply clean_refl].
Qed.

Lemma clean_inclusive_bonus (per_term : Z) (n : nat) (st : audit_state) :
  0 ≤ per_term → stays_clean st (inclusive_bonus per_term n st).
Proof.
  intros Hp. unfold inclusive_bonus.
  case_match; [apply clean_add_score; nia | apply clean_refl].
Qed.

Lemma clean_appended (st : audit_state) (s : Z) (issue : str) (fl : list str) :
  stays_clean st {| st_score := s; st_issues := st_issues st ++ [issue];
                    st_flags := fl |}.
Proof. intros H. simpl in H. by destruct (st_issues st). Qed.

Lemma clean_resume_length_check (text : str) (st : audit_state) :
  stays_clean st (resume_length_check text st).
Proof. unfold resume_length_check. repeat case_match;
  first [apply clean_report | apply clean_appended | apply clean_refl]. Qed.

Lemma clean_resume_keyword_check (text : str) (n : nat) (st : audit_state) :
  stays_clean st (resume_keyword_check text n st).
Proof. unfold resume_keyword_check. repeat case_match;
  first [apply clean_report | apply clean_appended | apply clean_refl]. Qed.

Lemma clean_age_pattern_step (text : str) (st : audit_state) (p : regex * string) :
  stays_clean st (age_pattern_step text st p).
Proof. unfold age_pattern_step. repeat case_match;
  first [apply clean_report | apply clean_appended | apply clean_refl]. Qed.

Lemma clean_gender_coded_check (text_lower : str) (st : audit_state) :
  stays_clean st (gender_coded_check text_lower st).
Proof.
  unfold gender_coded_check.
  eapply clean_trans; [|case_match; [apply clean_report | apply clean_refl]].
  repeat case_match;
  first [apply clean_report | apply clean_appended | apply clean_refl].
Qed.

Lemma clean_elite_check (text : str) (st : audit_state) :
  stays_clean st (elite_check text st).
Proof. unfold elite_check. repeat case_match;
  first [apply clean_report | apply clean_appended | apply clean_refl]. Qed.

Lemma clean_job_length_check (text : str) (st : audit_state) :
  stays_clean st (job_length_check text st).
Proof. unfold job_length_check. repeat case_match;
  first [apply clean_report | apply clean_appended | apply clean_refl]. Qed.

Lemma clean_job_keyword_check (text : str) (n : nat) (st : audit_state) :
  stays_clean st (job_keyword_check text n st).
Proof. unfold job_keyword_check. repeat case_match;
  first [apply clean_report | apply clean_appended | apply clean_refl]. Qed.

Lemma clean_pronoun_check (text : str) (st : audit_state) :
  stays_clean st (pronoun_check text st).
Proof. unfold pronoun_check. repeat case_match;
  first [apply clean_report | apply clean_appended | apply clean_refl]. Qed.

Lemma clean_age_term_step (text_lower : str) (st : audit_state) (p : string * string) :
  stays_clean st (age_term_step text_lower st p).
Proof. unfold age_term_step. repeat case_match;
  first [apply clean_report | apply clean_appended | apply clean_refl]. Qed.

Lemma clean_gendered_term_step (text_lower : str) (st : audit_state) (term : string) :
  stays_clean st (gendered_term_step text_lower st term).
Proof. unfold gendered_term_step. repeat case_match;
  first [apply clean_report | apply clean_appended | apply clean_refl]. Qed.

Lemma clean_credential_check (text_lower : str) (st : audit_state) :
  stays_clean st (credential_check text_lower st).
Proof. unfold credential_check. repeat case_match;
  first [apply clean_report | apply clean_appended | apply clean_refl]. Qed.

Lemma clean_experience_check (text : str) (st : audit_state) :
  stays_clean st (experience_check text st).
Proof. unfold experience_check. repeat case_match;
  first [apply clean_report | apply clean_appended | apply clean_refl]. Qed.

Lemma clean_resume (resume_text : str) :
  stays_clean {| st_score := 70; st_issues := []; st_flags := [] |}
    (resume_final_state resume_text).
Proof.
  unfold resume_final_state. cbv zeta.
  eapply clean_trans; [|apply clean_inclusive_bonus; lia].
  eapply clean_trans; [|apply clean_elite_check].
  eapply clean_trans; [|apply clean_gender_coded_check].
  eapply clean_trans;
    [|apply clean_fold_left; intros; apply clean_age_pattern_step].
  eapply clean_trans; [|apply clean_structure_bonus].
  eapply clean_trans; [|apply clean_resume_keyword_check].
  apply clean_resume_length_check.
Qed.

Lemma clean_job (job_desc : str) :
  stays_clean {| st_score := 70; st_issues := []; st_flags := [] |}
    (job_final_state job_desc).
Proof.
  unfold job_final_state, job_checks_after_gendered, job_state_before_gendered,
    gendered_language_check. cbv zeta.
  eapply clean_trans; [|apply clean_inclusive_bonus; lia].
  eapply clean_trans; [|apply clean_experience_check].
  eapply clean_trans; [|apply clean_credential_check].
  eapply clean_trans;
    [|apply clean_fold_left; intros; apply clean_fold_left; intros;
      apply clean_gendered_term_step].
  eapply clean_trans; [|apply clean_fold_left; intros; apply clean_age_term_step].
  eapply clean_trans; [|apply clean_pronoun_check].
  eapply clean_trans; [|apply clean_structure_bonus].
  eapply clean_trans; [|apply clean_job_keyword_check].
  apply clean_job_length_check.
Qed.

Lemma list_set_nil (l : list str) : list_set l = [] → l = [].
Proof.
  unfold list_set. intros H. destruct l as [|x l]; [done|].
  assert (Hx : x ∈ remove_dups (x :: l)) by (apply elem_of_remove_dups; by left).
  rewrite H in Hx. by apply elem_of_nil in Hx.
Qed.

(** X24. An audit of the ethics auditor that reports no issue does not flag
    the text: when [audit_resume] finds no bias, the score is at least 70 and
    [is_biased] is not set; when [audit_job_description] lists no issue, the
    score is at least 70 and [is_discriminatory] is not set. *)
Theorem no_issue_means_not_flagged (text : str) :
  (biases_found (audit_resume text) = [] →
   70 ≤ score (audit_resume text) ∧ is_biased (audit_resume text) = false)
  ∧ (issues (audit_job_description text) = [] →
     70 ≤ job_score (audit_job_description text)
     ∧ is_discriminatory (audit_job_description text) = false).
Proof.
  split; simpl; intros H%list_set_nil.
  - destruct (clean_resume text H) as [_ Hs]. simpl in Hs.
    split; [lia | apply Z.ltb_ge; lia].
  - destruct (clean_job text H) as [_ Hs]. simpl in Hs.
    split; [lia | apply Z.ltb_ge; lia].
Qed.

End CleanAudits.

Lemma no_issue_means_not_flagged_witness :
  let text := s2l "We are a company hiring for a role in our team; the work needs skills and experience." in
  EthicsAuditor.issues (EthicsAuditor.audit_job_description text) = []
  ∧ (70 ≤ EthicsAuditor.job_score (EthicsAuditor.audit_job_description text))%Z
  ∧ EthicsAuditor.is_discriminatory (EthicsAuditor.audit_job_description text) = false.
Proof.
  intros text.
  assert (H : EthicsAuditor.issues (EthicsAuditor.audit_job_description text) = [])
    by (vm_compute; reflexivity).
  split; [exact H|].
  exact (proj2 (no_issue_means_not_flagged text) H).
Defined.

(** ** The bridge roles *)

Lemma int_of_nonneg (s : str) : (0 ≤ int_of s)%Z.
Proof.
  unfold int_of.
  apply (fold_left_invariant _ (λ acc, (0 ≤ acc)%Z)); [|lia].
  intros acc c Hacc. unfold digit_val. lia.
Qed.

Lemma bridge_step_invariant (st : list CareerPlanner.BridgeRole * CareerPlanner.BridgeRole)
    (raw : str) :
  let P := λ st : list CareerPlanner.BridgeRole * CareerPlanner.BridgeRole,
    Forall (λ r, CareerPlanner.role_nonempty r = true ∧ role_fields_ok r) st.1
    ∧ role_fields_ok st.2 in
  P st → P (CareerPlanner.bridge_step st raw).
Proof.
  intros P. destruct st as [roles cur]. intros [Hroles [Hsk Htl]].
  unfold CareerPlanner.bridge_step.
  repeat case_match; subst P; simpl; (split; [|split]); simpl;
    try done; try congruence;
    try (apply Forall_app; split; [done|]; constructor; [|constructor];
         split; [done | by split]);
    try (intros l [= <-]; by destruct (split _ _) eqn:E; [apply split_nonempty in E|]);
    try (intros m [= <-]; first [apply int_of_nonneg | lia]).
  apply Forall_app. split; [done|]. constructor; [|constructor].
  split; [|by split].
  match goal with H : _ && _ = true |- _ => by apply andb_true_iff in H as [_ ?] end.
Qed.

(** X25. [recommend_bridge_roles] returns at most five roles, for every
    outcome of the call to the model.  No role is an empty dictionary, a list
    of skills that a role carries is never empty (a line "SKILLS:" without
    skills gives the list of one empty skill), and a number of months is
    never negative.  When the call raises, the only role is
    "Senior <current role>". *)
Theorem bridge_roles_are_bounded (invoke : result str) (current target : str) :
  ∃ roles,
    CareerPlanner.recommend_bridge_roles invoke current target = Ok roles
    ∧ (length roles ≤ 5)%nat
    ∧ (∀ r, r ∈ roles → CareerPlanner.role_nonempty r = true ∧ role_fields_ok r)
    ∧ (∀ e, invoke = Raise e →
            ∃ r, roles = [r]
                 ∧ CareerPlanner.role_title r = Some (s2l "Senior " ++ current)).
Proof.
  destruct invoke as [content|e]; simpl.
  - eexists. split; [reflexivity|].
    unfold CareerPlanner._parse_bridge_roles.
    pose proof (fold_left_invariant CareerPlanner.bridge_step _
                  (split newline content) ([], CareerPlanner.empty_role)
                  (λ st x, bridge_step_invariant st x)) as Hinv.
    destruct (fold_left _ _ _) as [roles cur]. simpl in Hinv.
    destruct Hinv as [Hroles Hcur].
    { split; [constructor|]. by split. }
    split; [rewrite length_take; lia|]. split; [|done].
    intros r Hr%subseteq_take.
    destruct (CareerPlanner.role_nonempty cur && CareerPlanner.has_role_title cur)
      eqn:E.
    + apply andb_true_iff in E as [E _].
      apply elem_of_app in Hr as [Hr|Hr%list_elem_of_singleton];
        [by apply (proj1 (Forall_forall _ _) Hroles) | by subst r].
    + by apply (proj1 (Forall_forall _ _) Hroles).
  - eexists. split; [reflexivity|]. split; [simpl; lia|]. split.
    + intros r Hr%list_elem_of_singleton. subst r. split; [done|].
      split; simpl; [by intros l [= <-] | intros m [= <-]; lia].
    + intros e' _. by eexists.
Qed.

(** ** The score of an answer *)






(** ** Recommendations scheduled twice *)

(** X27. [generate_learning_roadmap] schedules the third recommendation of
    priority "Medium" in two quarters, months 4-6 and months 7-9, when at
    most two recommendations have priority "High"; and the third of priority
    "Low" in months 7-9 and months 10-12 when at most two have priority
    "Medium". *)
Theorem third_recommendation_is_scheduled_twice
    (recommendations : list Learning.Recommendation) (r : Learning.Recommendation) :
  let high := List.filter (Learning.has_priority "High") recommendations in
  let medium := List.filter (Learning.has_priority "Medium") recommendations in
  let low := List.filter (Learning.has_priority "Low") recommendations in
  let m := Learning.generate_learning_roadmap recommendations in
  ((length high ≤ 2)%nat → medium !! 2%nat = Some r →
   r ∈ Learning.months_4_6 m ∧ r ∈ Learning.months_7_9 m)
  ∧ ((length medium ≤ 2)%nat → low !! 2%nat = Some r →
     r ∈ Learning.months_7_9 m ∧ r ∈ Learning.months_10_12 m).
Proof.
  intros high medium low m. subst m. unfold Learning.generate_learning_roadmap.
  fold high medium low. cbn [Learning.months_4_6 Learning.months_7_9 Learning.months_10_12].
  split.
  - intros Hh Hm.
    assert (Hlen : (2 < length medium)%nat) by (by apply lookup_lt_Some in Hm).
    destruct (2 <? length high)%nat eqn:E1; [apply Nat.ltb_lt in E1; lia|].
    destruct (2 <? length medium)%nat eqn:E2; [|apply Nat.ltb_ge in E2; lia].
    split.
    + apply elem_of_take. exists 2%nat. split; [done | lia].
    + apply elem_of_app. left. apply list_elem_of_lookup. exists 0%nat.
      by rewrite lookup_drop.
  - intros Hmd Hl.
    assert (Hlen : (2 < length low)%nat) by (by apply lookup_lt_Some in Hl).
    destruct (2 <? length medium)%nat eqn:E1; [apply Nat.ltb_lt in E1; lia|].
    destruct (2 <? length low)%nat eqn:E2; [|apply Nat.ltb_ge in E2; lia].
    split.
    + apply elem_of_take. exists 2%nat. split; [done | lia].
    + apply list_elem_of_lookup. exists 0%nat. by rewrite lookup_drop.
Qed.

Lemma third_recommendation_is_scheduled_twice_witness :
  let rec_for := λ s : string,
    {| Learning.skill := Some (s2l s); Learning.course := None;
       Learning.platform := None; Learning.duration := None;
       Learning.priority := Some (s2l "Medium") |} in
  let m := Learning.generate_learning_roadmap
             [rec_for "Git"; rec_for "Docker"; rec_for "SQL"] in
  rec_for "SQL" ∈ Learning.months_4_6 m ∧ rec_for "SQL" ∈ Learning.months_7_9 m.
Proof.
  intros rec_for m.
  apply (proj1 (third_recommendation_is_scheduled_twice
                  [rec_for "Git"; rec_for "Docker"; rec_for "SQL"] (rec_for "SQL")));
    [vm_compute; lia | reflexivity].
Defined.
